(** * bot-wa: the Baileys adapter ([BaileysClass]) and its helpers ([utils])

    A shallow embedding of the JavaScript sources

    - [src/lib/utils.js]     ([formatPhone], [generateRefprovider],
                              [isValidNumber], [generalDownload],
                              [convertAudio], [fileTypeFromFile])
    - the adapter class      ([handleConnectionUpdate],
                              [clearSessionAndRestart], the two [busEvents]
                              handlers, [sendMessage] and the typed senders)

    JavaScript values that reach the code untyped (the raw protocol events)
    are modelled by the type [value]; numbers are IEEE binary64 floats, as in
    the language.  Everything the code obtains from a collaborator (the file
    system, the clock, the [mime-types] tables, [path], the HTTP transport,
    [ffmpeg], the Baileys socket and store, [rimraf], [crypto.randomUUID]) is
    a field of an explicit environment record: the functions below are
    executable once an environment is given.  Some names are used by a
    module that does not import them ([join], [rimraf] and [proto] in the
    adapter; [mime], [extname] and [ffmpeg] in [utils.js]): such a free
    identifier resolves in the global object, and raises a ReferenceError
    when the global object does not define it, as in a plain Node.js
    process.  The environment says which of them the global object
    defines. *)

From Stdlib Require Import Bool Arith List String Ascii Floats Lia DecimalString
  DecimalNat.
Import ListNotations.

Set Warnings "-register-all".

Open Scope list_scope.
Open Scope string_scope.

(* ===================================================================== *)
(** ** JavaScript strings *)
(* ===================================================================== *)

(** A string is its sequence of code units, an [ascii] standing for one
    unit; the literals the code searches for are plain ASCII. *)
Module JsString.

(** [s.startsWith(p)] *)
Fixpoint starts_with (p s : string) : bool :=
  match p, s with
  | EmptyString, _ => true
  | String a p', String b s' => Ascii.eqb a b && starts_with p' s'
  | String _ _, EmptyString => false
  end.

(** [s.includes(p)] *)
Fixpoint includes (p s : string) : bool :=
  starts_with p s ||
  match s with
  | EmptyString => false
  | String _ s' => includes p s'
  end.

(** [s.slice(n)] *)
Fixpoint drop (n : nat) (s : string) : string :=
  match n, s with
  | O, _ => s
  | S n', String _ s' => drop n' s'
  | S _, EmptyString => EmptyString
  end.

(** [s.replace(p, '')] with a string pattern: only the first occurrence of
    [p] is removed. *)
Fixpoint remove_first (p s : string) : string :=
  if starts_with p s then drop (String.length p) s
  else match s with
       | EmptyString => EmptyString
       | String c s' => String c (remove_first p s')
       end.

(** [s.endsWith(p)] *)
Definition ends_with (p s : string) : bool :=
  starts_with p (drop (String.length s - String.length p) s)
  && (String.length p <=? String.length s)%nat.

(** Decimal rendering of an array index, as used for property names. *)
Definition of_nat (n : nat) : string := NilZero.string_of_uint (Nat.to_uint n).

(** The code units of a string, one string each. *)
Fixpoint chars (s : string) : list string :=
  match s with
  | EmptyString => []
  | String c s' => String c EmptyString :: chars s'
  end.

End JsString.

(* ===================================================================== *)
(** ** JavaScript values *)
(* ===================================================================== *)

Inductive value : Type :=
| VUndef
| VNull
| VBool (b : bool)
| VNum (x : float)
| VStr (s : string)
| VArr (items : list value)
| VObj (fields : list (string * value)).

Definition object := list (string * value).

Module Js.

(** Own property lookup in an object literal. *)
Fixpoint lookup (k : string) (o : object) : option value :=
  match o with
  | [] => None
  | (k', v) :: o' => if String.eqb k k' then Some v else lookup k o'
  end.

(** [o[k] = v]: an existing key keeps its place, a new one is appended. *)
Fixpoint set (k : string) (v : value) (o : object) : object :=
  match o with
  | [] => [(k, v)]
  | (k', v') :: o' =>
      if String.eqb k k' then (k, v) :: o' else (k', v') :: set k v o'
  end.

(** [{ ...o, k1: v1, ..., kn: vn }] *)
Definition extend (o : object) (kvs : list (string * value)) : object :=
  fold_left (fun acc kv => set (fst kv) (snd kv) acc) kvs o.

Definition truthy (v : value) : bool :=
  match v with
  | VUndef | VNull => false
  | VBool b => b
  | VNum x => negb (PrimFloat.is_zero x || PrimFloat.is_nan x)
  | VStr s => negb (String.eqb s "")
  | VArr _ | VObj _ => true
  end.

Definition nullish (v : value) : bool :=
  match v with
  | VUndef | VNull => true
  | _ => false
  end.

(** [typeof v === 'number'] *)
Definition is_number (v : value) : bool :=
  match v with
  | VNum _ => true
  | _ => false
  end.

(** [v === s] for a string literal [s] *)
Definition is_string (s : string) (v : value) : bool :=
  match v with
  | VStr s' => String.eqb s' s
  | _ => false
  end.

(** [v?.k].  The property names the adapter reads are never array indices,
    [length] or inherited members, so a primitive or an array answers
    [undefined]. *)
Definition opt_get (v : value) (k : string) : value :=
  match v with
  | VObj o => match lookup k o with Some x => x | None => VUndef end
  | _ => VUndef
  end.

(** [v.k]: [None] stands for the TypeError raised on [undefined]/[null]. *)
Definition get (v : value) (k : string) : option value :=
  if nullish v then None else Some (opt_get v k).

(** [a ?? b] *)
Definition coalesce (a b : value) : value := if nullish a then b else a.

Fixpoint indexed (n : nat) (l : list value) : object :=
  match l with
  | [] => []
  | v :: l' => (JsString.of_nat n, v) :: indexed (S n) l'
  end.

(** The own enumerable properties copied by [{ ...v }]. *)
Definition spread (v : value) : object :=
  match v with
  | VObj o => o
  | VArr l => indexed 0 l
  | VStr s => indexed 0 (map VStr (JsString.chars s))
  | _ => []
  end.

End Js.

(* ===================================================================== *)
(** ** Collaborators and effects *)
(* ===================================================================== *)

(** What the transport answers to [handleHttp.get(url, cb)] once the body
    has been piped to the temporary file. *)
Inductive fetch_result : Type :=
| Fetched (content_type : option string)  (* 'finish', with the header seen *)
| StreamError                             (* 'error' on the write stream    *)
| NoAnswer                                (* the callback is never invoked  *)
| InvalidUrl.                             (* [get] throws at once: not a    *)
                                          (* URL the transport accepts      *)

(** One aggregated poll option, as [getAggregateVotesInPollMessage] returns
    it. *)
Record poll_option : Type := { name : string; voters : list string }.

Record env : Type := {
  (* crypto *)
  randomUUID : nat -> string;
  (* fs, os, clock *)
  existsSync : string -> bool;
  readFileSync : string -> option string;
  rename_fails : string -> string -> bool;
  tmpdir : string;
  Date_now : nat;
  cwd : string;
  (* path *)
  extname : string -> string;
  dirname : string -> string;
  basename : string -> string -> string;
  join : string -> string -> string;
  (* mime-types: [false] is [None] *)
  mime_contentType : string -> option string;
  mime_extension : string -> option string;
  mime_lookup : string -> option string;
  (* follow-redirects *)
  http_get : bool -> string -> fetch_result;
  (* fluent-ffmpeg *)
  ffmpeg_fails : string -> string -> bool;
  (* rimraf *)
  rimraf_fails : string -> bool;
  (* Baileys *)
  loggedOut : float;
  vendor : option (string -> value -> option value);
  store : option (value -> value -> value);
  getAggregateVotesInPollMessage : value -> value -> list poll_option;
  (* constructor arguments *)
  gifPlayback : value;
  (* the global object: whether it defines a name that a module uses
     without importing it *)
  global_bound : string -> bool
}.

Inductive effect : Type :=
| VendorSend (jid : string) (content : value)
| HttpGet (secure : bool) (url : string)
| CreateWriteStream (path : string)
| Rename (src dst : string)
| ReadFile (path : string)
| Ffmpeg (input : string) (codec : value) (bitrate : string) (format : value)
         (output : string)
| ConsoleError
| Rimraf (path : string)
| InitBailey (persisted_session : bool)
| BindVendor
| InitBusEvents
| Emit (event : string) (arg : value).

Inductive error : Type :=
| TypeError
| RejectedNull
| IOError
| VendorError
| TranscodeError
| ReferenceError.

(** The settlement of a promise: fulfilled, rejected, or never settled. *)
Inductive outcome (A : Type) : Type :=
| Return (a : A)
| Throw (e : error)
| Pending.

Arguments Return {A} a.
Arguments Throw {A} e.
Arguments Pending {A}.

(** Computations that append to a trace of effects. *)
Definition M (A : Type) : Type := list effect -> outcome A * list effect.

Definition ret {A} (a : A) : M A := fun tr => (Return a, tr).

Definition throw {A} (e : error) : M A := fun tr => (Throw e, tr).

Definition never {A} : M A := fun tr => (Pending, tr).

Definition bind {A B} (m : M A) (k : A -> M B) : M B :=
  fun tr =>
    match m tr with
    | (Return a, tr') => k a tr'
    | (Throw e, tr') => (Throw e, tr')
    | (Pending, tr') => (Pending, tr')
    end.

Definition catch {A} (m : M A) (h : error -> M A) : M A :=
  fun tr =>
    match m tr with
    | (Throw e, tr') => h e tr'
    | r => r
    end.

Definition perform (e : effect) : M unit := fun tr => (Return tt, (tr ++ [e])%list).

Definition of_option {A} (o : option A) (e : error) : M A :=
  match o with
  | Some a => ret a
  | None => throw e
  end.

Declare Scope js_scope.
Delimit Scope js_scope with js.
Notation "x <- m ;; k" := (bind m (fun x => k))
  (at level 61, m at next level, right associativity) : js_scope.
Notation "m ;; k" := (bind m (fun _ => k))
  (at level 61, right associativity) : js_scope.
Open Scope js_scope.

(** Effects the run of [m] adds to an empty trace, and its settlement. *)
Definition run {A} (m : M A) : outcome A * list effect := m [].

(** The evaluation of an identifier that is free in its module: it is found
    in the global object, or a ReferenceError is raised. *)
Definition resolve (E : env) (name : string) : M unit :=
  if global_bound E name then ret tt else throw ReferenceError.

(* ===================================================================== *)
(** ** [utils] *)
(* ===================================================================== *)

Module utils.

(** [let domain = contact.includes('@g.us') ? '@g.us' : '@s.whatsapp.net'] *)
Definition domain_of (contact : string) : string :=
  if JsString.includes "@g.us" contact then "@g.us" else "@s.whatsapp.net".

(** [formatPhone: (contact, full = false) => ...] *)
Definition formatPhone (contact : string) (full : bool) : string :=
  let domain := domain_of contact in
  let contact := JsString.remove_first domain contact in
  if negb full then contact ++ domain else contact.

(** [formatPhone] applied to an arbitrary value: the method calls
    [contact.includes] and [contact.replace] raise a TypeError unless
    [contact] is a string ([None]). *)
Definition formatPhone_value (contact : value) (full : bool) : option string :=
  match contact with
  | VStr s => Some (formatPhone s full)
  | _ => None
  end.

(** [isValidNumber: (rawNumber) => !rawNumber.match(/\@g.us\b/gm)].
    The dot of the pattern matches any character but a line terminator;
    [\b] asks for a word boundary after the final [s]. *)
Definition is_word_char (c : ascii) : bool :=
  let n := nat_of_ascii c in
  (((48 <=? n) && (n <=? 57)) || ((65 <=? n) && (n <=? 90))
   || ((97 <=? n) && (n <=? 122)) || (n =? 95))%nat.

Definition is_line_terminator (c : ascii) : bool :=
  let n := nat_of_ascii c in ((n =? 10) || (n =? 13))%nat.

Definition group_pattern_here (s : string) : bool :=
  match s with
  | String "@" (String "g" (String d (String "u" (String "s" rest)))) =>
      negb (is_line_terminator d) &&
      match rest with
      | EmptyString => true
      | String c _ => negb (is_word_char c)
      end
  | _ => false
  end.

Fixpoint group_pattern_matches (s : string) : bool :=
  group_pattern_here s ||
  match s with
  | EmptyString => false
  | String _ s' => group_pattern_matches s'
  end.

Definition isValidNumber (rawNumber : string) : bool :=
  negb (group_pattern_matches rawNumber).

(** [generateRefprovider: (prefix = '') => prefix ? `${prefix}_${uuid}` : uuid]
    where [uuid] is the value [crypto.randomUUID()] returned. *)
Definition generateRefprovider (prefix uuid : string) : string :=
  if negb (String.eqb prefix "") then prefix ++ "_" ++ uuid else uuid.

(** [fileTypeFromFile]: [type] is the declared content type ([null] when
    the header is missing), [ext] is [mime.extension(type)], which is
    [false] for anything but a known type.  [mime] is free in [utils.js]. *)
Definition fileTypeFromFile (E : env) (content_type : option string)
  : M (option string * option string) :=
  resolve E "mime" ;;
  ret (content_type,
       match content_type with
       | Some t => mime_extension E t
       | None => None
       end).

(** [`${ext}`] for a value that is a string or [false]. *)
Definition render_ext (ext : option string) : string :=
  match ext with
  | Some e => e
  | None => "false"
  end.

(** [handleDownload] of [generalDownload]: the response (its declared
    content type) and the path the content is at. *)
Definition handleDownload (E : env) (url : string) (checkIsLocal : bool)
  : M (option string * string) :=
  let checkProtocol := JsString.includes "https:" url in
  let name := "tmp-" ++ JsString.of_nat (Date_now E) ++ "-dat" in
  let fullPath := tmpdir E ++ "/" ++ name in
  perform (CreateWriteStream fullPath) ;;
  if checkIsLocal then
    (* [mime.contentType(extname(url))]: both names are free in [utils.js] *)
    resolve E "mime" ;;
    resolve E "extname" ;;
    ret (mime_contentType E (extname E url), url)
  else
    match http_get E checkProtocol url with
    | InvalidUrl => throw TypeError
    | Fetched content_type =>
        perform (HttpGet checkProtocol url) ;; ret (content_type, fullPath)
    | StreamError =>
        perform (HttpGet checkProtocol url) ;; throw RejectedNull
    | NoAnswer =>
        perform (HttpGet checkProtocol url) ;; never
    end.

(** [handleFile] of [generalDownload] *)
Definition handleFile (E : env) (pathInput : string) (ext : option string)
  : M string :=
  let fullPath := pathInput ++ "." ++ render_ext ext in
  perform (Rename pathInput fullPath) ;;
  if rename_fails E pathInput fullPath then throw RejectedNull
  else ret fullPath.

(** [generalDownload: async (url) => ...] *)
Definition generalDownload (E : env) (url : string) : M string :=
  let checkIsLocal := existsSync E url in
  httpResponse <- handleDownload E url checkIsLocal ;;
  fileType <- fileTypeFromFile E (fst httpResponse) ;;
  handleFile E (snd httpResponse) (snd fileType).

(** The members every object literal inherits from [Object.prototype]. *)
Definition inherited_names : list string :=
  ["constructor"; "__defineGetter__"; "__defineSetter__"; "hasOwnProperty";
   "__lookupGetter__"; "__lookupSetter__"; "isPrototypeOf";
   "propertyIsEnumerable"; "toString"; "valueOf"; "__proto__";
   "toLocaleString"].

(** [formats[format]], as its [code] and [ext]: the two entries of the
    table; an inherited member, on which both reads give [undefined]; or
    [undefined] itself ([None]), on which the reads raise. *)
Definition formats (format : string) : option (value * value) :=
  if String.eqb format "mp3" then Some (VStr "libmp3lame", VStr "mp3")
  else if String.eqb format "opus" then Some (VStr "libopus", VStr "opus")
  else if existsb (String.eqb format) inherited_names then Some (VUndef, VUndef)
  else None.

(** [`${v}`] for a string or [undefined]. *)
Definition render_field (v : value) : string :=
  match v with
  | VStr s => s
  | _ => "undefined"
  end.

(** [convertAudio: async (filePath = null, format = 'opus') => ...];
    [ffmpeg] is free in [utils.js]. *)
Definition convertAudio (E : env) (filePath format : string) : M string :=
  f <- of_option (formats format) TypeError ;;
  let opusFilePath :=
    join E (dirname E filePath)
           (basename E filePath (extname E filePath) ++ "." ++ render_field (snd f)) in
  resolve E "ffmpeg" ;;
  perform (Ffmpeg filePath (fst f) "64k" (snd f) opusFilePath) ;;
  if ffmpeg_fails E filePath opusFilePath then throw TranscodeError
  else ret opusFilePath.

End utils.

(* ===================================================================== *)
(** ** [busEvents]: the inbound handlers *)
(* ===================================================================== *)

(** What one invocation of the [messages.upsert] handler does: it emits one
    ['message'] event, returns without emitting, or raises. *)
Inductive delivery : Type :=
| Emitted (payload : object)
| Dropped
| Raised (e : error).

Record upsert_event : Type := { messages : list value; type : value }.

Module busEvents.

Import Js.

(** The working state of the handler between two statements: the payload
    under construction and the number of UUIDs drawn so far. *)
Definition draft : Type := object * nat.

(** [if (messageCtx.message?.K) payload = { ...payload, body: ref, type: T }] *)
Definition detect (E : env) (message : value) (k prefix ty : string)
           (d : draft) : draft :=
  if truthy (opt_get message k) then
    (extend (fst d)
       [("body", VStr (utils.generateRefprovider prefix (randomUUID E (snd d))));
        ("type", VStr ty)],
     S (snd d))
  else d.

(** The location test carries the extra [typeof] conditions. *)
Definition detect_location (E : env) (message : value) (d : draft) : draft :=
  let loc := opt_get message "locationMessage" in
  if truthy loc then
    if is_number (opt_get loc "degreesLatitude")
       && is_number (opt_get loc "degreesLongitude")
    then
      (extend (fst d)
         [("body", VStr (utils.generateRefprovider "_event_location_"
                           (randomUUID E (snd d))));
          ("type", VStr "location")],
       S (snd d))
    else d
  else d.

(** The four detection statements, in source order. *)
Definition classify (E : env) (message : value) (d : draft) : draft :=
  let d := detect_location E message d in
  let d := detect E message "imageMessage" "_event_media_" "image" d in
  let d := detect E message "documentMessage" "_event_document_" "file" d in
  detect E message "audioMessage" "_event_voice_note_" "voice" d.

(** [const x = payload?.message?.R?.F; if (x) payload.body = x] *)
Definition reply_override (reply field : string) (payload : object) : object :=
  let x := opt_get (opt_get (opt_get (VObj payload) "message") reply) field in
  if truthy x then set "body" x payload else payload.

(** The two overrides, button first, list second. *)
Definition apply_reply_overrides (payload : object) : object :=
  reply_override "listResponseMessage" "title"
    (reply_override "buttonsResponseMessage" "selectedDisplayText" payload).

(** The payload as first built from [messageCtx]. *)
Definition initial_payload (messageCtx : value) : object :=
  let message := opt_get messageCtx "message" in
  extend (spread messageCtx)
    [("body", coalesce (opt_get (opt_get message "extendedTextMessage") "text")
                       (opt_get message "conversation"));
     ("from", opt_get (opt_get messageCtx "key") "remoteJid");
     ("type", VStr "text")].

(** The payload once the detection statements have run. *)
Definition classified (E : env) (messageCtx message : value) : object :=
  fst (classify E message (initial_payload messageCtx, 0)).

(** The handler of ['messages.upsert']. *)
Definition upsert (E : env) (ev : upsert_event) : delivery :=
  if negb (is_string "notify" (type ev)) then Dropped else
  let messageCtx := hd VUndef (messages ev) in
  let payload := initial_payload messageCtx in
  match get messageCtx "message" with
  | None => Raised TypeError
  | Some message =>
      if truthy (opt_get message "pollUpdateMessage") then Dropped else
      if is_string "status@broadcast" (opt_get (VObj payload) "from") then Dropped else
      if truthy (opt_get (opt_get (VObj payload) "key") "fromMe") then Dropped else
      let payload := classified E messageCtx message in
      match utils.formatPhone_value (opt_get (VObj payload) "from") false with
      | None => Raised TypeError
      | Some checked =>
          if negb (truthy (VStr checked)) then Dropped else
          let payload := apply_reply_overrides payload in
          match utils.formatPhone_value (opt_get (VObj payload) "from") false with
          | None => Raised TypeError
          | Some from => Emitted (set "from" (VStr from) payload)
          end
      end
  end.

(** [pollMessage.find(poll => poll.voters.length > 0)?.name || ''] *)
Definition poll_body (pollMessage : list poll_option) : string :=
  match find (fun poll => (0 <? List.length (voters poll))%nat) pollMessage with
  | Some poll => name poll
  | None => ""
  end.

(** [getMessage]: [msg?.message || undefined] from the store, or the empty
    message [proto.Message.fromObject({})] when no store is attached;
    [proto] is free in the adapter.  [None] stands for a raise. *)
Definition getMessage (E : env) (key : value) : option value :=
  match store E with
  | Some loadMessage =>
      match get key "remoteJid", get key "id" with
      | Some jid, Some id =>
          let m := opt_get (loadMessage jid id) "message" in
          Some (if truthy m then m else VUndef)
      | _, _ => None
      end
  | None => if global_bound E "proto" then Some (VObj []) else None
  end.

(** What [getMessage] raises when it does: a TypeError on the key, or the
    ReferenceError on [proto]. *)
Definition getMessage_error (E : env) : error :=
  match store E with
  | Some _ => TypeError
  | None => ReferenceError
  end.

(** One turn of the loop of the ['messages.update'] handler over the entry
    [entry] of the batch [message]. *)
Definition update_entry (E : env) (message : list value) (entry : value)
  : M unit :=
  key_update <- of_option
      (if nullish entry then None
       else Some (opt_get entry "key", opt_get entry "update")) TypeError ;;
  let key := fst key_update in
  pollUpdates <- of_option (get (snd key_update) "pollUpdates") TypeError ;;
  if truthy pollUpdates then
    pollCreation <- of_option (getMessage E key) (getMessage_error E) ;;
    if truthy pollCreation then
      let pollMessage := getAggregateVotesInPollMessage E pollCreation pollUpdates in
      let messageCtx := hd VUndef message in
      from <- of_option (get key "remoteJid") TypeError ;;
      perform (Emit "message"
        (VObj (extend (spread messageCtx)
                 [("body", VStr (poll_body pollMessage));
                  ("from", from);
                  ("voters", pollCreation);
                  ("type", VStr "poll")])))
    else ret tt
  else ret tt.

Fixpoint update_loop (E : env) (message rest : list value) : M unit :=
  match rest with
  | [] => ret tt
  | entry :: rest' => update_entry E message entry ;; update_loop E message rest'
  end.

(** The handler of ['messages.update']. *)
Definition update (E : env) (message : list value) : M unit :=
  update_loop E message message.

End busEvents.

(* ===================================================================== *)
(** ** [BaileysClass]: connection lifecycle *)
(* ===================================================================== *)

Record connection_update : Type :=
  { connection : value; lastDisconnect : value; qr : value }.

(** What the lifecycle acts on: whether the session material persisted by an
    earlier login is still on disk, and the effects performed so far. *)
Record world : Type := { session_on_disk : bool; log : list effect }.

Module Lifecycle.

Import Js.

Definition SESSION_DIRECTORY_NAME : string := "baileys_sessions".

Definition record (e : effect) (w : world) : world :=
  {| session_on_disk := session_on_disk w; log := (log w ++ [e])%list |}.

(** [initBailey]: a connecting cycle starts from whatever session material
    is on disk at that moment. *)
Definition initBailey (w : world) : world :=
  record (InitBailey (session_on_disk w)) w.

(** [v === x] for a number [x] *)
Definition is_num (x : float) (v : value) : bool :=
  match v with
  | VNum y => PrimFloat.eqb y x
  | _ => false
  end.

Definition PATH_BASE (E : env) : string := join E (cwd E) SESSION_DIRECTORY_NAME.

(** The synchronous part of [clearSessionAndRestart]: [join] and [rimraf],
    both free in the adapter, are resolved and [rimraf] is called; [None]
    stands for the ReferenceError raised when one of them is not defined. *)
Definition clearSessionAndRestart (E : env) (w : world) : option world :=
  if global_bound E "join" && global_bound E "rimraf"
  then Some (record (Rimraf (PATH_BASE E)) w)
  else None.

(** The completion of that [rimraf] call and its callback
    [(err) => { if (err) return; this.initBailey() }]. *)
Definition rimraf_completes (E : env) (w : world) : world :=
  if rimraf_fails E (PATH_BASE E) then w
  else initBailey {| session_on_disk := false; log := log w |}.

Definition statusCode (update : connection_update) : value :=
  opt_get (opt_get (opt_get (lastDisconnect update) "error") "output") "statusCode".

(** The first [if] of [handleConnectionUpdate], on a close: the world after
    it and whether a [rimraf] call is left in flight, or [None] when
    [clearSessionAndRestart] raised. *)
Definition on_close (E : env) (update : connection_update) (w : world)
  : option (world * bool) :=
  let code := statusCode update in
  if is_string "close" (connection update) then
    let w := if negb (is_num (loggedOut E) code) then initBailey w else w in
    if is_num (loggedOut E) code then
      match clearSessionAndRestart E w with
      | Some w' => Some (w', true)
      | None => None
      end
    else Some (w, false)
  else Some (w, false).

(** The body of [handleConnectionUpdate]: how its promise settles, the
    world it leaves, and whether a [rimraf] call is left in flight.  A raise
    in the first [if] skips the rest of the body. *)
Definition handle_sync (E : env) (update : connection_update) (w : world)
  : outcome unit * (world * bool) :=
  match on_close E update w with
  | None => (Throw ReferenceError, (w, false))
  | Some (w, in_flight) =>
      let w :=
        if is_string "open" (connection update) then
          record (Emit "ready" (VBool true))
                 (record InitBusEvents (record BindVendor w))
        else w in
      let w := if truthy (qr update) then record (Emit "qr" (qr update)) w else w in
      (Return tt, (w, in_flight))
  end.

(** How the promise of [handleConnectionUpdate] settles. *)
Definition settlement (E : env) (update : connection_update) (w : world)
  : outcome unit :=
  fst (handle_sync E update w).

(** [handleConnectionUpdate], up to the completion of what it started. *)
Definition handleConnectionUpdate (E : env) (update : connection_update)
           (w : world) : world :=
  let '(w, in_flight) := snd (handle_sync E update w) in
  if in_flight then rimraf_completes E w else w.

End Lifecycle.

(* ===================================================================== *)
(** ** [BaileysClass]: outbound senders *)
(* ===================================================================== *)

Record button : Type := { body : value }.

Record send_options : Type :=
  { buttons : option (list button); media : option string }.

(** The third argument of [sendMessage], when one is passed. *)
Record send_arg : Type := { options : option send_options }.

(** Where [sendMedia] routes an acquired file. *)
Inductive media_route : Type :=
| ToImage (file : string)
| ToVideo (file : string)
| ToAudio (file : string)
| ToFile (file : string).

Module Senders.

Import Js.

(** [this.vendor.sendMessage(jid, content)]; reading [sendMessage] off a
    [null] vendor raises. *)
Definition vendor_sendMessage (E : env) (jid : string) (content : value)
  : M value :=
  match vendor E with
  | None => throw TypeError
  | Some send =>
      perform (VendorSend jid content) ;;
      of_option (send jid content) VendorError
  end.

(** [this.vendor.sendMessage(jid, { K: readFileSync(filePath), ... })]: the
    callee is evaluated before the file is read. *)
Definition vendor_sendFileContent (E : env) (jid filePath : string)
           (content : value -> value) : M value :=
  match vendor E with
  | None => throw TypeError
  | Some send =>
      perform (ReadFile filePath) ;;
      data <- of_option (readFileSync E filePath) IOError ;;
      perform (VendorSend jid (content (VStr data))) ;;
      of_option (send jid (content (VStr data))) VendorError
  end.

Definition sendImage (E : env) (number filePath : string) (text : value)
  : M value :=
  let numberClean := utils.formatPhone number false in
  vendor_sendFileContent E numberClean filePath
    (fun data => VObj [("image", data); ("caption", coalesce text (VStr ""))]).

Definition sendVideo (E : env) (number filePath : string) (text : value)
  : M value :=
  let numberClean := utils.formatPhone number false in
  vendor_sendFileContent E numberClean filePath
    (fun data => VObj [("video", data); ("caption", text);
                       ("gifPlayback", gifPlayback E)]).

Definition sendAudio (E : env) (number audioUrl : string) : M value :=
  let numberClean := utils.formatPhone number false in
  vendor_sendMessage E numberClean
    (VObj [("audio", VObj [("url", VStr audioUrl)]); ("ptt", VBool true)]).

Definition sendText (E : env) (number : string) (message : value) : M value :=
  let numberClean := utils.formatPhone number false in
  vendor_sendMessage E numberClean (VObj [("text", message)]).

(** [filePath.split('/').pop()] *)
Fixpoint last_segment (acc s : string) : string :=
  match s with
  | EmptyString => acc
  | String "/" s' => last_segment "" s'
  | String c s' => last_segment (acc ++ String c "") s'
  end.

Definition mime_value (m : option string) : value :=
  match m with
  | Some t => VStr t
  | None => VBool false
  end.

Definition sendFile (E : env) (number filePath : string) : M value :=
  let numberClean := utils.formatPhone number false in
  let mimeType := mime_lookup E filePath in
  let fileName := last_segment "" filePath in
  vendor_sendMessage E numberClean
    (VObj [("document", VObj [("url", VStr filePath)]);
           ("mimetype", mime_value mimeType);
           ("fileName", VStr fileName)]).

(** [sendPoll = async (number, text, poll) => ...], [poll.options] being
    the list [poll_options]. *)
Definition sendPoll (E : env) (number : string) (text : value)
           (poll_options : list value) : M value :=
  let numberClean := utils.formatPhone number false in
  if (List.length poll_options <? 2)%nat then ret (VBool false)
  else
    let pollMessage :=
      VObj [("name", text); ("values", VArr poll_options);
            ("selectableCount", VNum 1%float)] in
    vendor_sendMessage E numberClean (VObj [("poll", pollMessage)]).

(** The part of [sendMedia] inside its [try]: acquire, look the type up,
    pick the sender (transcoding audio first). *)
Definition route_media (E : env) (mediaUrl : string) : M media_route :=
  fileDownloaded <- utils.generalDownload E mediaUrl ;;
  mimeType <- of_option (mime_lookup E fileDownloaded) TypeError ;;
  if JsString.includes "image" mimeType then ret (ToImage fileDownloaded)
  else if JsString.includes "video" mimeType then ret (ToVideo fileDownloaded)
  else if JsString.includes "audio" mimeType then
    fileOpus <- utils.convertAudio E fileDownloaded "opus" ;;
    ret (ToAudio fileOpus)
  else ret (ToFile fileDownloaded).

(** [sendMedia = async (number, mediaUrl, text) => ...]: the promise of the
    chosen sender is returned without being awaited, so only the routing
    part is under the [catch]. *)
Definition sendMedia (E : env) (number mediaUrl : string) (text : value)
  : M value :=
  route <- catch (route_media E mediaUrl)
                 (fun error => perform ConsoleError ;; throw error) ;;
  match route with
  | ToImage f => sendImage E number f text
  | ToVideo f => sendVideo E number f text
  | ToAudio f => sendAudio E number f
  | ToFile f => sendFile E number f
  end.

(** [sendMessage = async (numberIn, message, { options }) => ...]:
    destructuring a missing third argument raises before the body runs. *)
Definition sendMessage (E : env) (numberIn : string) (message : value)
           (third : option send_arg) : M value :=
  match third with
  | None => throw TypeError
  | Some arg =>
      let number := utils.formatPhone numberIn false in
      let opts := options arg in
      match match opts with Some o => buttons o | None => None end with
      | Some (b :: bs) =>
          sendPoll E number message (map body (b :: bs))
      | _ =>
          match match opts with Some o => media o | None => None end with
          | Some m =>
              if negb (String.eqb m "") then sendMedia E number m message
              else sendText E number message
          | None => sendText E number message
          end
      end
  end.

End Senders.

(* ===================================================================== *)
(** ** What the specification says, where it differs from the code *)
(* ===================================================================== *)

Module Spec.

Import Js.

(** The classification of section 4.2, read as written: the first rule
    that matches decides. *)
Definition first_match_type (message : value) : string :=
  let loc := opt_get message "locationMessage" in
  if truthy loc && is_number (opt_get loc "degreesLatitude")
     && is_number (opt_get loc "degreesLongitude") then "location"
  else if truthy (opt_get message "imageMessage") then "image"
  else if truthy (opt_get message "documentMessage") then "file"
  else if truthy (opt_get message "audioMessage") then "voice"
  else "text".

(** The poll body of section 4.2, read as written: the name of the option
    with the most voters, the empty string when no option has a voter. *)
Fixpoint most_voted (best : string) (count : nat) (l : list poll_option)
  : string :=
  match l with
  | [] => best
  | o :: l' =>
      if (count <? List.length (voters o))%nat
      then most_voted (name o) (List.length (voters o)) l'
      else most_voted best count l'
  end.

Definition most_voted_name (l : list poll_option) : string :=
  most_voted "" 0 l.

End Spec.

(* ===================================================================== *)
(** ** Predicates used in the statements *)
(* ===================================================================== *)

(** A bare identifier has no ['@'] in it. *)
Definition bare (b : string) : Prop := JsString.includes "@" b = false.

(** A canonical identifier is a bare one followed by one domain suffix. *)
Definition canonical (x : string) : Prop :=
  exists b, bare b /\ (x = b ++ "@g.us" \/ x = b ++ "@s.whatsapp.net").

(** The shape of a poll message emitted for some entry of the batch
    [message]: the entry's poll creation was found, and the payload carries
    it with the type [poll] and the body [poll_body] computes. *)
Definition poll_emission (E : env) (message : list value) (e : effect) : Prop :=
  exists entry pollUpdates pollCreation p,
    In entry message
    /\ Js.get (Js.opt_get entry "update") "pollUpdates" = Some pollUpdates
    /\ busEvents.getMessage E (Js.opt_get entry "key") = Some pollCreation
    /\ Js.truthy pollCreation = true
    /\ e = Emit "message" (VObj p)
    /\ Js.lookup "type" p = Some (VStr "poll")
    /\ Js.lookup "voters" p = Some pollCreation
    /\ Js.lookup "body" p
       = Some (VStr (busEvents.poll_body
                 (getAggregateVotesInPollMessage E pollCreation pollUpdates))).

(* ===================================================================== *)
(** ** Sample inputs *)
(* ===================================================================== *)

Module Samples.

(** An environment: a counter-like UUID source, an empty file system but
    for one local picture, a socket that acknowledges every send, and a
    global object that defines every name the modules leave unimported. *)
Definition E0 : env :=
  {| randomUUID := fun n => "uuid-" ++ JsString.of_nat n;
     existsSync := fun p => String.eqb p "/tmp/existing/file.png";
     readFileSync := fun _ => Some "bytes";
     rename_fails := fun _ _ => false;
     tmpdir := "/tmp";
     Date_now := 1700;
     cwd := "/srv/bot";
     extname := fun p => if JsString.ends_with ".png" p then ".png" else "";
     dirname := fun _ => "/tmp";
     basename := fun p _ => p;
     join := fun a b => a ++ "/" ++ b;
     mime_contentType := fun e =>
       if String.eqb e ".png" then Some "image/png" else None;
     mime_extension := fun t =>
       if String.eqb t "image/png" then Some "png" else None;
     mime_lookup := fun p =>
       if JsString.ends_with ".png" p then Some "image/png" else None;
     http_get := fun _ _ => Fetched (Some "image/png");
     ffmpeg_fails := fun _ _ => false;
     rimraf_fails := fun _ => false;
     loggedOut := 401%float;
     vendor := Some (fun _ _ => Some (VObj [("status", VNum 1%float)]));
     store := Some (fun _ id =>
       if Js.is_string "poll-1" id
       then VObj [("message", VObj [("pollCreationMessage",
                                     VObj [("name", VStr "Lunch?")])])]
       else VUndef);
     getAggregateVotesInPollMessage := fun _ _ =>
       [ {| name := "Pizza"; voters := ["a@s.whatsapp.net"] |};
         {| name := "Sushi"; voters := ["b@s.whatsapp.net"; "c@s.whatsapp.net"] |} ];
     gifPlayback := VBool false;
   global_bound := fun _ => true |}.

(** The same, where every path exists on disk and the delete of the
    session directory fails. *)
Definition E1 : env :=
  {| randomUUID := randomUUID E0;
     existsSync := fun _ => true;
     readFileSync := readFileSync E0;
     rename_fails := rename_fails E0;
     tmpdir := tmpdir E0;
     Date_now := Date_now E0;
     cwd := cwd E0;
     extname := extname E0;
     dirname := dirname E0;
     basename := basename E0;
     join := join E0;
     mime_contentType := mime_contentType E0;
     mime_extension := mime_extension E0;
     mime_lookup := mime_lookup E0;
     http_get := http_get E0;
     ffmpeg_fails := ffmpeg_fails E0;
     rimraf_fails := fun _ => true;
     loggedOut := loggedOut E0;
     vendor := vendor E0;
     store := store E0;
     getAggregateVotesInPollMessage := getAggregateVotesInPollMessage E0;
     gifPlayback := gifPlayback E0;
   global_bound := global_bound E0 |}.

Definition key_of (jid : string) : value :=
  VObj [("remoteJid", VStr jid); ("fromMe", VBool false); ("id", VStr "m-1")].

Definition notify (messageCtx : value) : upsert_event :=
  {| messages := [messageCtx]; type := VStr "notify" |}.

Definition location : value :=
  VObj [("degreesLatitude", VNum 4.5%float); ("degreesLongitude", VNum (-74.25)%float)].

(** The scenario of section 8: a plain conversation message. *)
Definition hi : upsert_event :=
  notify (VObj [("key", key_of "123@s.whatsapp.net");
                ("message", VObj [("conversation", VStr "hi")])]).

(** A message carrying both a valid location and an image. *)
Definition location_and_image : upsert_event :=
  notify (VObj [("key", key_of "123@s.whatsapp.net");
                ("message", VObj [("locationMessage", location);
                                  ("imageMessage", VObj [("url", VStr "u")])])]).

(** An image whose container also carries a quick-reply selection. *)
Definition image_with_button_reply : upsert_event :=
  notify (VObj [("key", key_of "123@s.whatsapp.net");
                ("message",
                 VObj [("imageMessage", VObj [("url", VStr "u")]);
                       ("buttonsResponseMessage",
                        VObj [("selectedDisplayText", VStr "Yes")])])]).

(** A message whose sender identifier is the empty string. *)
Definition empty_sender : upsert_event :=
  notify (VObj [("key", key_of "");
                ("message", VObj [("conversation", VStr "hi")])]).

(** A poll update for the stored poll ["poll-1"]. *)
Definition poll_update : list value :=
  [ VObj [("key", VObj [("remoteJid", VStr "123@s.whatsapp.net");
                        ("id", VStr "poll-1")]);
          ("update", VObj [("pollUpdates", VArr [VObj []])])] ].

Definition close_logged_out : connection_update :=
  {| connection := VStr "close";
     lastDisconnect :=
       VObj [("error", VObj [("output", VObj [("statusCode", VNum 401%float)])])];
     qr := VUndef |}.

Definition close_timed_out : connection_update :=
  {| connection := VStr "close";
     lastDisconnect :=
       VObj [("error", VObj [("output", VObj [("statusCode", VNum 408%float)])])];
     qr := VUndef |}.

Definition w0 : world := {| session_on_disk := true; log := [] |}.

Definition one_button : send_arg :=
  {| options := Some {| buttons := Some [ {| body := VStr "Yes" |} ];
                        media := None |} |}.

Definition two_buttons : send_arg :=
  {| options := Some {| buttons := Some [ {| body := VStr "Yes" |};
                                          {| body := VStr "No" |} ];
                        media := None |} |}.

Definition no_options : send_arg := {| options := None |}.

End Samples.

(* ===================================================================== *)
(** ** [BaileysClass]: the senders outside the routing tree *)
(* ===================================================================== *)

(** A call on the connection that passes a third argument, or that is not
    [sendMessage]; the connection answers whether the promise of the call is
    fulfilled. *)
Inductive socket_call : Type :=
| SockSendMessage (jid content options : value)
| SockPresenceUpdate (presence jid : value).

Definition socket : Type := option (socket_call -> bool).

Module Direct.

Import Js.

(** [buttons.map((btn, i) => ({ buttonId: `id-btn-${i}`, buttonText:
    { displayText: btn.body }, type: 1 }))], from the index [i] on. *)
Fixpoint templateButtons (i : nat) (buttons : list button) : list value :=
  match buttons with
  | [] => []
  | btn :: rest =>
      VObj [("buttonId", VStr ("id-btn-" ++ JsString.of_nat i));
            ("buttonText", VObj [("displayText", body btn)]);
            ("type", VNum 1%float)]
      :: templateButtons (S i) rest
  end.

(** [sendButtons = async (number, text, buttons) => ...] *)
Definition sendButtons (E : env) (number : string) (text : value)
           (buttons : list button) : M value :=
  let numberClean := utils.formatPhone number false in
  let buttonMessage :=
    VObj [("text", text); ("footer", VStr "");
          ("buttons", VArr (templateButtons 0 buttons));
          ("headerType", VNum 1%float)] in
  Senders.vendor_sendMessage E numberClean buttonMessage.

(** The default [messages = null] of the structured senders: it applies
    when the argument is [undefined]. *)
Definition or_null (messages : value) : value :=
  match messages with
  | VUndef => VNull
  | v => v
  end.

(** One awaited call on the connection, then the value [result]. *)
Definition awaited (sock : socket) (call : socket_call) (result : value)
  : outcome value * list socket_call :=
  match sock with
  | None => (Throw TypeError, [])
  | Some fulfilled =>
      (if fulfilled call then Return result else Throw VendorError, [call])
  end.

Definition success : value := VObj [("status", VStr "success")].

(** [sendLocation = async (remoteJid, latitude, longitude, messages = null)] *)
Definition sendLocation (sock : socket) (remoteJid latitude longitude messages : value)
  : outcome value * list socket_call :=
  awaited sock
    (SockSendMessage remoteJid
       (VObj [("location", VObj [("degreesLatitude", latitude);
                                 ("degreesLongitude", longitude)])])
       (VObj [("quoted", or_null messages)]))
    success.

(** [s.replaceAll(c, '')] for a one-character pattern. *)
Fixpoint remove_all (c : ascii) (s : string) : string :=
  match s with
  | EmptyString => EmptyString
  | String a s' =>
      if Ascii.eqb a c then remove_all c s' else String a (remove_all c s')
  end.

Definition nl : string := String "010"%char EmptyString.

Definition cleanContactNumber (contactNumber : string) : string :=
  remove_all " " contactNumber.

Definition waid (contactNumber : string) : string :=
  JsString.remove_first "+" (cleanContactNumber contactNumber).

(** The [vcard] string of [sendContact]. *)
Definition vcard (contactNumber displayName : string) : string :=
  "BEGIN:VCARD" ++ nl ++
  "VERSION:3.0" ++ nl ++
  "FN:" ++ displayName ++ nl ++
  "ORG:Ashoka Uni;" ++ nl ++
  "TEL;type=CELL;type=VOICE;waid=" ++ waid contactNumber ++ ":"
    ++ cleanContactNumber contactNumber ++ nl ++
  "END:VCARD".

(** [sendContact = async (remoteJid, contactNumber, displayName,
    messages = null)] *)
Definition sendContact (sock : socket) (remoteJid : value)
           (contactNumber displayName : string) (messages : value)
  : outcome value * list socket_call :=
  awaited sock
    (SockSendMessage remoteJid
       (VObj [("contacts",
               VObj [("displayName", VStr displayName);
                     ("contacts",
                      VArr [VObj [("vcard", VStr (vcard contactNumber displayName))]])])])
       (VObj [("quoted", or_null messages)]))
    success.

(** [sendPresenceUpdate = async (remoteJid, WAPresence) => ...] *)
Definition sendPresenceUpdate (sock : socket) (remoteJid WAPresence : value)
  : outcome value * list socket_call :=
  awaited sock (SockPresenceUpdate WAPresence remoteJid) VUndef.

End Direct.

(* ===================================================================== *)
(** ** Predicates on traces *)
(* ===================================================================== *)

(** The decimal digits; a property name that begins with another character
    is no array index. *)
Definition is_digit (c : ascii) : bool :=
  ((48 <=? nat_of_ascii c) && (nat_of_ascii c <=? 57))%nat.

(** The entries of a [messages.update] batch that emit nothing: they carry
    no poll updates, or their poll creation is not found. *)
Definition silent_entry (E : env) (entry : value) : Prop :=
  Js.nullish entry = false
  /\ exists pollUpdates,
       Js.get (Js.opt_get entry "update") "pollUpdates" = Some pollUpdates
       /\ (Js.truthy pollUpdates = false
           \/ busEvents.getMessage E (Js.opt_get entry "key") = Some VUndef).

(** No call of the connection's [sendMessage] among the effects. *)
Definition no_send (l : list effect) : Prop :=
  forall jid content, ~ In (VendorSend jid content) l.

(** At most one call of the connection's [sendMessage] among the effects,
    and that one addressed to [jid]. *)
Definition sends_to (jid : string) (l : list effect) : Prop :=
  no_send l
  \/ exists before content after,
       l = (before ++ VendorSend jid content :: after)%list
       /\ no_send before /\ no_send after.

(** Whatever trace [m] starts from, it leaves it in place and adds effects
    that satisfy [P]. *)
Definition adds {A} (P : list effect -> Prop) (m : M A) : Prop :=
  forall tr r tr', m tr = (r, tr') ->
    exists added, tr' = (tr ++ added)%list /\ P added.

(* ===================================================================== *)
(** ** More sample inputs *)
(* ===================================================================== *)

Module MoreSamples.

(** [Samples.E0] before any connection is open: no vendor is bound. *)
Definition offline : env :=
  {| randomUUID := randomUUID Samples.E0;
     existsSync := existsSync Samples.E0;
     readFileSync := readFileSync Samples.E0;
     rename_fails := rename_fails Samples.E0;
     tmpdir := tmpdir Samples.E0;
     Date_now := Date_now Samples.E0;
     cwd := cwd Samples.E0;
     extname := extname Samples.E0;
     dirname := dirname Samples.E0;
     basename := basename Samples.E0;
     join := join Samples.E0;
     mime_contentType := mime_contentType Samples.E0;
     mime_extension := mime_extension Samples.E0;
     mime_lookup := mime_lookup Samples.E0;
     http_get := http_get Samples.E0;
     ffmpeg_fails := ffmpeg_fails Samples.E0;
     rimraf_fails := rimraf_fails Samples.E0;
     loggedOut := loggedOut Samples.E0;
     vendor := None;
     store := store Samples.E0;
     getAggregateVotesInPollMessage := getAggregateVotesInPollMessage Samples.E0;
     gifPlayback := gifPlayback Samples.E0;
   global_bound := global_bound Samples.E0 |}.

(** [Samples.E0] facing a server that declares no content type. *)
Definition untyped_server : env :=
  {| randomUUID := randomUUID Samples.E0;
     existsSync := existsSync Samples.E0;
     readFileSync := readFileSync Samples.E0;
     rename_fails := rename_fails Samples.E0;
     tmpdir := tmpdir Samples.E0;
     Date_now := Date_now Samples.E0;
     cwd := cwd Samples.E0;
     extname := extname Samples.E0;
     dirname := dirname Samples.E0;
     basename := basename Samples.E0;
     join := join Samples.E0;
     mime_contentType := mime_contentType Samples.E0;
     mime_extension := mime_extension Samples.E0;
     mime_lookup := mime_lookup Samples.E0;
     http_get := fun _ _ => Fetched None;
     ffmpeg_fails := ffmpeg_fails Samples.E0;
     rimraf_fails := rimraf_fails Samples.E0;
     loggedOut := loggedOut Samples.E0;
     vendor := vendor Samples.E0;
     store := store Samples.E0;
     getAggregateVotesInPollMessage := getAggregateVotesInPollMessage Samples.E0;
     gifPlayback := gifPlayback Samples.E0;
   global_bound := global_bound Samples.E0 |}.

(** [Samples.E0] on a disk whose files cannot be read. *)
Definition unreadable : env :=
  {| randomUUID := randomUUID Samples.E0;
     existsSync := existsSync Samples.E0;
     readFileSync := fun _ => None;
     rename_fails := rename_fails Samples.E0;
     tmpdir := tmpdir Samples.E0;
     Date_now := Date_now Samples.E0;
     cwd := cwd Samples.E0;
     extname := extname Samples.E0;
     dirname := dirname Samples.E0;
     basename := basename Samples.E0;
     join := join Samples.E0;
     mime_contentType := mime_contentType Samples.E0;
     mime_extension := mime_extension Samples.E0;
     mime_lookup := mime_lookup Samples.E0;
     http_get := http_get Samples.E0;
     ffmpeg_fails := ffmpeg_fails Samples.E0;
     rimraf_fails := rimraf_fails Samples.E0;
     loggedOut := loggedOut Samples.E0;
     vendor := vendor Samples.E0;
     store := store Samples.E0;
     getAggregateVotesInPollMessage := getAggregateVotesInPollMessage Samples.E0;
     gifPlayback := gifPlayback Samples.E0;
   global_bound := global_bound Samples.E0 |}.

(** A plain Node.js process: the global object defines none of the names
    the modules use without importing them.  The socket and the rest are
    those of [Samples.E0]. *)
Definition plain_node : env :=
  {| randomUUID := randomUUID Samples.E0;
     existsSync := existsSync Samples.E0;
     readFileSync := readFileSync Samples.E0;
     rename_fails := rename_fails Samples.E0;
     tmpdir := tmpdir Samples.E0;
     Date_now := Date_now Samples.E0;
     cwd := cwd Samples.E0;
     extname := extname Samples.E0;
     dirname := dirname Samples.E0;
     basename := basename Samples.E0;
     join := join Samples.E0;
     mime_contentType := mime_contentType Samples.E0;
     mime_extension := mime_extension Samples.E0;
     mime_lookup := mime_lookup Samples.E0;
     http_get := http_get Samples.E0;
     ffmpeg_fails := ffmpeg_fails Samples.E0;
     rimraf_fails := rimraf_fails Samples.E0;
     loggedOut := loggedOut Samples.E0;
     vendor := vendor Samples.E0;
     store := store Samples.E0;
     getAggregateVotesInPollMessage := getAggregateVotesInPollMessage Samples.E0;
     gifPlayback := gifPlayback Samples.E0;
     global_bound := fun _ => false |}.

(** A plain Node.js process whose transport refuses what is no URL. *)
Definition picky_transport : env :=
  {| randomUUID := randomUUID Samples.E0;
     existsSync := existsSync Samples.E0;
     readFileSync := readFileSync Samples.E0;
     rename_fails := rename_fails Samples.E0;
     tmpdir := tmpdir Samples.E0;
     Date_now := Date_now Samples.E0;
     cwd := cwd Samples.E0;
     extname := extname Samples.E0;
     dirname := dirname Samples.E0;
     basename := basename Samples.E0;
     join := join Samples.E0;
     mime_contentType := mime_contentType Samples.E0;
     mime_extension := mime_extension Samples.E0;
     mime_lookup := mime_lookup Samples.E0;
     http_get := fun _ url =>
       if JsString.starts_with "http://" url || JsString.starts_with "https://" url
       then Fetched (Some "image/png") else InvalidUrl;
     ffmpeg_fails := ffmpeg_fails Samples.E0;
     rimraf_fails := rimraf_fails Samples.E0;
     loggedOut := loggedOut Samples.E0;
     vendor := vendor Samples.E0;
     store := store Samples.E0;
     getAggregateVotesInPollMessage := getAggregateVotesInPollMessage Samples.E0;
     gifPlayback := gifPlayback Samples.E0;
     global_bound := fun _ => false |}.

Definition three_buttons : list button :=
  [ {| body := VStr "Yes" |}; {| body := VStr "No" |}; {| body := VStr "Later" |} ].

End MoreSamples.

(* ===================================================================== *)
(** * Properties *)
(* ===================================================================== *)

(** ** Objects *)

Section ObjectFacts.

Import Js.

Lemma lookup_set_same (k : string) (v : value) (o : object) :
  lookup k (set k v o) = Some v.
Proof.
  induction o as [| [k' v'] o IH]; simpl.
  - now rewrite String.eqb_refl.
  - destruct (String.eqb k k') eqn:Hk; simpl.
    + now rewrite String.eqb_refl.
    + now rewrite Hk.
Qed.

Lemma lookup_set_other (k k' : string) (v : value) (o : object) :
  k <> k' -> lookup k' (set k v o) = lookup k' o.
Proof.
  intros Hne. induction o as [| [k0 v0] o IH]; simpl.
  - destruct (String.eqb k' k) eqn:Hk; [| reflexivity].
    apply String.eqb_eq in Hk. congruence.
  - destruct (String.eqb k k0) eqn:Hk0; simpl.
    + apply String.eqb_eq in Hk0. subst k0.
      destruct (String.eqb k' k) eqn:Hk; [| reflexivity].
      apply String.eqb_eq in Hk. congruence.
    + now rewrite IH.
Qed.

End ObjectFacts.

(** ** Strings *)

Section StringFacts.

Import JsString.

Lemma starts_with_refl (p : string) : starts_with p p = true.
Proof. induction p; simpl; [reflexivity |]. now rewrite Ascii.eqb_refl. Qed.

Lemma drop_length_app (p s : string) : drop (String.length p) (p ++ s) = s.
Proof. induction p; simpl; [now destruct s | assumption]. Qed.

Lemma length_app (a b : string) :
  String.length (a ++ b) = String.length a + String.length b.
Proof. induction a; simpl; [reflexivity | now rewrite IHa]. Qed.

Lemma app_empty_r (a : string) : a ++ "" = a.
Proof. induction a; simpl; [reflexivity | now rewrite IHa]. Qed.

Lemma ends_with_app (a d : string) : ends_with d (a ++ d) = true.
Proof.
  unfold ends_with. rewrite length_app.
  replace (String.length a + String.length d - String.length d)
    with (String.length a) by lia.
  rewrite drop_length_app, starts_with_refl. simpl.
  apply Nat.leb_le. lia.
Qed.

Lemma bare_cons (c : ascii) (b : string) :
  bare (String c b) -> Ascii.eqb "@" c = false /\ bare b.
Proof.
  unfold bare. cbn [includes starts_with]. intros H.
  destruct (Ascii.eqb "@" c); cbn [andb orb] in *; [discriminate | now split].
Qed.

(** A pattern that begins with ['@'] cannot start inside a bare prefix. *)
Lemma includes_bare_app (p b d : string) :
  bare b -> includes (String "@" p) (b ++ d) = includes (String "@" p) d.
Proof.
  induction b as [| c b IH]; intros Hb; [reflexivity |].
  apply bare_cons in Hb as [Hc Hb].
  cbn [append includes starts_with]. rewrite Hc. simpl. auto.
Qed.

Lemma remove_first_bare_app (p b d : string) :
  bare b ->
  remove_first (String "@" p) (b ++ d) = b ++ remove_first (String "@" p) d.
Proof.
  induction b as [| c b IH]; intros Hb; [reflexivity |].
  apply bare_cons in Hb as [Hc Hb].
  cbn [append remove_first starts_with]. rewrite Hc. simpl.
  now rewrite IH.
Qed.

Lemma remove_first_bare (p b : string) :
  bare b -> remove_first (String "@" p) b = b.
Proof.
  intros Hb. rewrite <- (app_empty_r b) at 1.
  rewrite remove_first_bare_app by assumption. cbn. apply app_empty_r.
Qed.

End StringFacts.

(** ** [formatPhone] *)

Section FormatPhone.

Import utils.

Lemma formatPhone_unfold (x : string) :
  formatPhone x false = formatPhone x true ++ domain_of x.
Proof. reflexivity. Qed.

Lemma domain_of_cases (x : string) :
  domain_of x = "@g.us" \/ domain_of x = "@s.whatsapp.net".
Proof. unfold domain_of. destruct (JsString.includes "@g.us" x); auto. Qed.

Lemma domain_of_group (b : string) :
  bare b -> domain_of (b ++ "@g.us") = "@g.us".
Proof.
  intros Hb. unfold domain_of.
  now rewrite (includes_bare_app "g.us" b "@g.us" Hb).
Qed.

Lemma domain_of_user (b : string) :
  bare b -> domain_of (b ++ "@s.whatsapp.net") = "@s.whatsapp.net".
Proof.
  intros Hb. unfold domain_of.
  now rewrite (includes_bare_app "g.us" b "@s.whatsapp.net" Hb).
Qed.

(** Stripping a canonical identifier gives back its bare part. *)
Lemma strip_group (b : string) :
  bare b -> formatPhone (b ++ "@g.us") true = b.
Proof.
  intros Hb. unfold formatPhone. rewrite (domain_of_group b Hb). cbn [negb].
  rewrite (remove_first_bare_app "g.us" b "@g.us" Hb).
  apply app_empty_r.
Qed.

Lemma strip_user (b : string) :
  bare b -> formatPhone (b ++ "@s.whatsapp.net") true = b.
Proof.
  intros Hb. unfold formatPhone. rewrite (domain_of_user b Hb). cbn [negb].
  rewrite (remove_first_bare_app "s.whatsapp.net" b "@s.whatsapp.net" Hb).
  apply app_empty_r.
Qed.

Lemma canonical_strip (x : string) :
  canonical x -> bare (formatPhone x true).
Proof.
  intros [b [Hb [-> | ->]]]; [now rewrite strip_group | now rewrite strip_user].
Qed.

(** Formatting a canonical identifier returns it unchanged. *)
Lemma formatPhone_canonical (x : string) :
  canonical x -> formatPhone x false = x.
Proof.
  intros [b [Hb [-> | ->]]]; rewrite formatPhone_unfold.
  - now rewrite strip_group, domain_of_group.
  - now rewrite strip_user, domain_of_user.
Qed.

(** Whenever stripping leaves a bare identifier, formatting yields a
    canonical one. *)
Lemma formatPhone_makes_canonical (x : string) :
  bare (formatPhone x true) -> canonical (formatPhone x false).
Proof.
  intros Hb. exists (formatPhone x true). split; [assumption |].
  rewrite formatPhone_unfold. destruct (domain_of_cases x) as [-> | ->]; auto.
Qed.

(** The result of [formatPhone x false] is never the empty string. *)
Lemma formatPhone_truthy (x : string) :
  Js.truthy (VStr (formatPhone x false)) = true.
Proof.
  rewrite formatPhone_unfold. simpl.
  destruct (formatPhone x true); destruct (domain_of_cases x) as [-> | ->];
    reflexivity.
Qed.

End FormatPhone.

(** C7, as stated, fails: removing the first ["@g.us"] of ["a@g@g.us.usb"]
    joins its neighbours into a new ["@g.us"], which the second pass removes
    in turn. *)
Lemma formatPhone_not_idempotent :
  utils.formatPhone "a@g@g.us.usb" false = "a@g.usb@g.us"
  /\ utils.formatPhone (utils.formatPhone "a@g@g.us.usb" false) false
     = "ab@g.us@g.us"
  /\ utils.formatPhone (utils.formatPhone "a@g@g.us.usb" false) false
     <> utils.formatPhone "a@g@g.us.usb" false.
Proof. repeat split. discriminate. Qed.

(** C7 (amended): [formatPhone] is idempotent on every contact string whose
    domain-stripped remainder is bare (it holds no ['@']), which covers bare
    and canonical identifiers; and formatting a canonical identifier returns
    it unchanged. *)
Theorem formatPhone_idempotent_when_bare (x : string) :
  (bare (utils.formatPhone x true) ->
   utils.formatPhone (utils.formatPhone x false) false = utils.formatPhone x false)
  /\ (bare x -> bare (utils.formatPhone x true))
  /\ (canonical x ->
      bare (utils.formatPhone x true) /\ utils.formatPhone x false = x).
Proof.
  split; [| split].
  - intros Hb. apply formatPhone_canonical. now apply formatPhone_makes_canonical.
  - intros Hb. unfold utils.formatPhone. cbn [negb].
    destruct (domain_of_cases x) as [-> | ->]; now rewrite remove_first_bare.
  - intros Hc. split; [now apply canonical_strip | now apply formatPhone_canonical].
Qed.

Lemma formatPhone_idempotent_when_bare_witness :
  canonical "573001112233@s.whatsapp.net"
  /\ bare (utils.formatPhone "573001112233@s.whatsapp.net" true)
  /\ utils.formatPhone (utils.formatPhone "573001112233@s.whatsapp.net" false) false
     = utils.formatPhone "573001112233@s.whatsapp.net" false
  /\ utils.formatPhone "573001112233@s.whatsapp.net" false
     = "573001112233@s.whatsapp.net".
Proof.
  assert (Hc : canonical "573001112233@s.whatsapp.net").
  { exists "573001112233". split; [reflexivity | right; reflexivity]. }
  split; [exact Hc |].
  destruct (formatPhone_idempotent_when_bare "573001112233@s.whatsapp.net")
    as (Hidem & _ & Hcanon).
  destruct (Hcanon Hc) as [Hb Hfix].
  split; [exact Hb |]. split; [exact (Hidem Hb) | exact Hfix].
Defined.

(** ** The [messages.upsert] handler *)

Section Upsert.

Import Js busEvents.

Variable E : env.

Lemma opt_get_lookup (o o' : object) (k : string) :
  lookup k o = lookup k o' -> opt_get (VObj o) k = opt_get (VObj o') k.
Proof. unfold opt_get. now intros ->. Qed.

Lemma initial_payload_type (ctx : value) :
  lookup "type" (initial_payload ctx) = Some (VStr "text").
Proof. unfold initial_payload, extend. simpl. apply lookup_set_same. Qed.

Lemma initial_payload_from (ctx : value) :
  lookup "from" (initial_payload ctx)
  = Some (opt_get (opt_get ctx "key") "remoteJid").
Proof.
  unfold initial_payload, extend. simpl.
  rewrite lookup_set_other by discriminate. apply lookup_set_same.
Qed.

(** Each detection statement writes [body] and [type] only. *)
Lemma detect_frame (message : value) (k prefix ty : string) (d : draft)
      (f : string) :
  f <> "body" -> f <> "type" ->
  lookup f (fst (detect E message k prefix ty d)) = lookup f (fst d).
Proof.
  intros Hb Ht. unfold detect.
  destruct (truthy (opt_get message k)); [| reflexivity].
  unfold extend. simpl. now rewrite !lookup_set_other by congruence.
Qed.

Lemma detect_location_frame (message : value) (d : draft) (f : string) :
  f <> "body" -> f <> "type" ->
  lookup f (fst (detect_location E message d)) = lookup f (fst d).
Proof.
  intros Hb Ht. unfold detect_location.
  destruct (truthy (opt_get message "locationMessage")); [| reflexivity].
  destruct (is_number _ && is_number _); [| reflexivity].
  unfold extend. simpl. now rewrite !lookup_set_other by congruence.
Qed.

Lemma classify_frame (message : value) (d : draft) (f : string) :
  f <> "body" -> f <> "type" ->
  lookup f (fst (classify E message d)) = lookup f (fst d).
Proof.
  intros Hb Ht. unfold classify.
  now rewrite !detect_frame, detect_location_frame.
Qed.

Lemma detect_type (message : value) (k prefix ty : string) (d : draft) :
  lookup "type" (fst (detect E message k prefix ty d))
  = if truthy (opt_get message k) then Some (VStr ty)
    else lookup "type" (fst d).
Proof.
  unfold detect. destruct (truthy (opt_get message k)); [| reflexivity].
  unfold extend. simpl. apply lookup_set_same.
Qed.

Lemma detect_location_type (message : value) (d : draft) :
  lookup "type" (fst (detect_location E message d))
  = let loc := opt_get message "locationMessage" in
    if truthy loc && is_number (opt_get loc "degreesLatitude")
       && is_number (opt_get loc "degreesLongitude")
    then Some (VStr "location") else lookup "type" (fst d).
Proof.
  unfold detect_location. cbv zeta.
  destruct (truthy (opt_get message "locationMessage")); [| reflexivity].
  cbn [andb].
  destruct (is_number _ && is_number _); [| reflexivity].
  unfold extend. simpl. apply lookup_set_same.
Qed.

(** Each override writes [body] only. *)
Lemma reply_override_frame (reply field : string) (payload : object)
      (f : string) :
  f <> "body" ->
  lookup f (reply_override reply field payload) = lookup f payload.
Proof.
  intros Hb. unfold reply_override.
  destruct (truthy _); [| reflexivity].
  now rewrite lookup_set_other by congruence.
Qed.

Lemma apply_reply_overrides_frame (payload : object) (f : string) :
  f <> "body" ->
  lookup f (apply_reply_overrides payload) = lookup f payload.
Proof.
  intros Hb. unfold apply_reply_overrides.
  now rewrite !reply_override_frame.
Qed.

Lemma classified_from (ctx message : value) :
  opt_get (VObj (classified E ctx message)) "from"
  = opt_get (opt_get ctx "key") "remoteJid".
Proof.
  unfold classified, opt_get at 1.
  rewrite classify_frame by discriminate. cbn [fst].
  now rewrite initial_payload_from.
Qed.

Lemma overridden_from (ctx message : value) :
  opt_get (VObj (apply_reply_overrides (classified E ctx message))) "from"
  = opt_get (opt_get ctx "key") "remoteJid".
Proof.
  rewrite <- (classified_from ctx message). apply opt_get_lookup.
  apply apply_reply_overrides_frame. discriminate.
Qed.

(** When the handler emits, every filter was passed, the sender is a
    string, and the payload is the classified one with the overrides
    applied and [from] rewritten. *)
Lemma upsert_emitted (ev : upsert_event) (p : object) :
  upsert E ev = Emitted p ->
  let ctx := hd VUndef (messages ev) in
  exists message s,
    is_string "notify" (type ev) = true
    /\ get ctx "message" = Some message
    /\ truthy (opt_get message "pollUpdateMessage") = false
    /\ opt_get (opt_get ctx "key") "remoteJid" = VStr s
    /\ String.eqb s "status@broadcast" = false
    /\ truthy (opt_get (opt_get (VObj (initial_payload ctx)) "key") "fromMe") = false
    /\ p = set "from" (VStr (utils.formatPhone s false))
             (apply_reply_overrides (classified E ctx message)).
Proof.
  intros H ctx. unfold upsert in H. fold ctx in H.
  destruct (is_string "notify" (type ev)) eqn:Hn; [| discriminate].
  cbn [negb] in H.
  destruct (get ctx "message") as [message |] eqn:Hm; [| discriminate].
  destruct (truthy (opt_get message "pollUpdateMessage")) eqn:Hp; [discriminate |].
  destruct (is_string "status@broadcast" _) eqn:Hs; [discriminate |].
  destruct (truthy (opt_get (opt_get _ "key") "fromMe")) eqn:Hf; [discriminate |].
  rewrite classified_from, overridden_from in H.
  unfold opt_get at 1 in Hs. rewrite initial_payload_from in Hs.
  destruct (opt_get (opt_get ctx "key") "remoteJid") as [| | | | s | |] eqn:Hr;
    try discriminate.
  cbn [utils.formatPhone_value] in H.
  rewrite formatPhone_truthy in H. cbn [negb] in H.
  exists message, s. repeat split; try assumption; congruence.
Qed.

(** Conversely, the handler emits whenever the filters are passed and the
    sender is a string: the validity gate rejects nothing. *)
Lemma upsert_emits (ev : upsert_event) (message : value) (s : string) :
  let ctx := hd VUndef (messages ev) in
  is_string "notify" (type ev) = true ->
  get ctx "message" = Some message ->
  truthy (opt_get message "pollUpdateMessage") = false ->
  opt_get (opt_get ctx "key") "remoteJid" = VStr s ->
  String.eqb s "status@broadcast" = false ->
  truthy (opt_get (opt_get (VObj (initial_payload ctx)) "key") "fromMe") = false ->
  upsert E ev
  = Emitted (set "from" (VStr (utils.formatPhone s false))
               (apply_reply_overrides (classified E ctx message))).
Proof.
  intros ctx Hn Hm Hp Hr Hs Hf. unfold upsert. fold ctx.
  rewrite Hn, Hm, Hp. cbn [negb].
  unfold opt_get at 1. rewrite initial_payload_from, Hr.
  cbn [is_string]. rewrite Hs, Hf.
  rewrite classified_from, overridden_from, Hr.
  cbn [utils.formatPhone_value].
  now rewrite formatPhone_truthy.
Qed.

End Upsert.

(** C1, as stated, fails: a message with a valid location and an image is
    emitted with type [image], where first-match-wins gives [location]. *)
Lemma upsert_location_overridden_by_image :
  exists ctx message p,
    messages Samples.location_and_image = [ctx]
    /\ Js.get ctx "message" = Some message
    /\ busEvents.upsert Samples.E0 Samples.location_and_image = Emitted p
    /\ Js.lookup "type" p = Some (VStr "image")
    /\ Spec.first_match_type message = "location".
Proof. do 3 eexists. repeat split; reflexivity. Qed.

(** C1 (amended): the [type] of an emitted message is decided by the last
    detection statement that matches, so the precedence is audio, then
    document, then image, then location (with numeric latitude and
    longitude), else text; it is the first-match classification whenever
    the message carries neither image, document nor audio. *)
Theorem upsert_type_last_match_wins (E : env) (ev : upsert_event) (p : object) :
  busEvents.upsert E ev = Emitted p ->
  exists message,
    Js.get (hd VUndef (messages ev)) "message" = Some message
    /\ Js.lookup "type" p
       = Some (VStr
           (let loc := Js.opt_get message "locationMessage" in
            if Js.truthy (Js.opt_get message "audioMessage") then "voice"
            else if Js.truthy (Js.opt_get message "documentMessage") then "file"
            else if Js.truthy (Js.opt_get message "imageMessage") then "image"
            else if Js.truthy loc
                    && Js.is_number (Js.opt_get loc "degreesLatitude")
                    && Js.is_number (Js.opt_get loc "degreesLongitude")
                 then "location"
            else "text"))
    /\ (Js.truthy (Js.opt_get message "imageMessage") = false ->
        Js.truthy (Js.opt_get message "documentMessage") = false ->
        Js.truthy (Js.opt_get message "audioMessage") = false ->
        Js.lookup "type" p = Some (VStr (Spec.first_match_type message))).
Proof.
  intros H. apply upsert_emitted in H.
  destruct H as (message & s & _ & Hm & _ & _ & _ & _ & ->).
  exists message. split; [exact Hm |].
  assert (Hty : forall k, Js.lookup "type"
              (Js.set "from" k (busEvents.apply_reply_overrides
                                  (busEvents.classified E (hd VUndef (messages ev)) message)))
            = Js.lookup "type" (busEvents.classified E (hd VUndef (messages ev)) message)).
  { intros k. rewrite lookup_set_other by discriminate.
    apply apply_reply_overrides_frame. discriminate. }
  rewrite Hty. unfold busEvents.classified, busEvents.classify.
  rewrite !detect_type, detect_location_type. cbn [fst].
  rewrite initial_payload_type. cbv zeta. unfold Spec.first_match_type.
  split.
  - destruct (Js.truthy (Js.opt_get message "audioMessage")); [reflexivity |].
    destruct (Js.truthy (Js.opt_get message "documentMessage")); [reflexivity |].
    destruct (Js.truthy (Js.opt_get message "imageMessage")); [reflexivity |].
    destruct (Js.truthy (Js.opt_get message "locationMessage") && _ && _);
      reflexivity.
  - intros -> -> ->.
    destruct (Js.truthy (Js.opt_get message "locationMessage") && _ && _);
      reflexivity.
Qed.

Lemma upsert_type_last_match_wins_witness :
  exists p message,
    busEvents.upsert Samples.E0 Samples.location_and_image = Emitted p
    /\ Js.get (hd VUndef (messages Samples.location_and_image)) "message"
       = Some message
    /\ Js.lookup "type" p = Some (VStr "image").
Proof.
  eexists.
  destruct (upsert_type_last_match_wins Samples.E0 Samples.location_and_image
              _ eq_refl) as (message & Hm & Hty & _).
  exists message. split; [reflexivity |]. split; [exact Hm |].
  rewrite Hty. injection Hm as <-. reflexivity.
Defined.

(** C4: the validity gate rejects nothing.  Whatever string the sender
    identifier is, a notify event that passed the earlier filters is
    emitted. *)
Theorem upsert_validity_gate_rejects_nothing
        (E : env) (ev : upsert_event) (message : value) (s : string) :
  Js.is_string "notify" (type ev) = true ->
  Js.get (hd VUndef (messages ev)) "message" = Some message ->
  Js.truthy (Js.opt_get message "pollUpdateMessage") = false ->
  Js.opt_get (Js.opt_get (hd VUndef (messages ev)) "key") "remoteJid" = VStr s ->
  String.eqb s "status@broadcast" = false ->
  Js.truthy (Js.opt_get (Js.opt_get
     (VObj (busEvents.initial_payload (hd VUndef (messages ev)))) "key") "fromMe")
  = false ->
  exists p, busEvents.upsert E ev = Emitted p
            /\ Js.lookup "from" p = Some (VStr (utils.formatPhone s false)).
Proof.
  intros Hn Hm Hp Hr Hs Hf. eexists. split.
  - now apply (upsert_emits E ev message s).
  - apply lookup_set_same.
Qed.

(** The gate at work on an empty sender identifier: the message is emitted,
    its [from] being the domain suffix alone. *)
Lemma upsert_validity_gate_rejects_nothing_witness :
  exists p, busEvents.upsert Samples.E0 Samples.empty_sender = Emitted p
            /\ Js.lookup "from" p = Some (VStr "@s.whatsapp.net").
Proof.
  apply (upsert_validity_gate_rejects_nothing Samples.E0 Samples.empty_sender
           (VObj [("conversation", VStr "hi")]) ""); reflexivity.
Defined.

(** The one way the gate stops a message is by raising: without a sender
    string, [formatPhone] fails on [contact.includes]. *)
Lemma upsert_raises_without_sender :
  busEvents.upsert Samples.E0
    (Samples.notify (VObj [("message", VObj [("conversation", VStr "hi")])]))
  = Raised TypeError.
Proof. reflexivity. Qed.

(** The handler never consults [isValidNumber]: a group sender, which that
    predicate rejects, is emitted like any other. *)
Lemma upsert_ignores_isValidNumber :
  utils.isValidNumber "120363025246125486@g.us" = false
  /\ exists p,
       busEvents.upsert Samples.E0
         (Samples.notify (VObj [("key", Samples.key_of "120363025246125486@g.us");
                                ("message", VObj [("conversation", VStr "hi")])]))
       = Emitted p
       /\ Js.lookup "from" p = Some (VStr "120363025246125486@g.us").
Proof. split; [reflexivity |]. eexists. split; reflexivity. Qed.

(** C8, as stated, fails: on the scenario of section 8 the emitted [from] is
    ["123@s.whatsapp.net"], domain included, not the bare ["123"]. *)
Lemma upsert_from_keeps_domain :
  exists p,
    busEvents.upsert Samples.E0 Samples.hi = Emitted p
    /\ Js.lookup "from" p = Some (VStr "123@s.whatsapp.net")
    /\ JsString.includes "@s.whatsapp.net" "123@s.whatsapp.net" = true
    /\ utils.formatPhone "123@s.whatsapp.net" true = "123".
Proof. eexists. repeat split; reflexivity. Qed.

(** C8 (amended): every message emitted from the upsert path has a [from]
    field that is the sender identifier in domain-qualified form: the
    identifier with the first occurrence of its domain removed, followed by
    that domain (["@g.us"] when the identifier contains it, else
    ["@s.whatsapp.net"]). *)
Theorem upsert_from_is_domain_qualified (E : env) (ev : upsert_event) (p : object) :
  busEvents.upsert E ev = Emitted p ->
  exists s,
    Js.opt_get (Js.opt_get (hd VUndef (messages ev)) "key") "remoteJid" = VStr s
    /\ Js.lookup "from" p
       = Some (VStr (utils.formatPhone s true ++ utils.domain_of s))
    /\ JsString.ends_with (utils.domain_of s)
         (utils.formatPhone s true ++ utils.domain_of s) = true
    /\ (utils.domain_of s = "@g.us" \/ utils.domain_of s = "@s.whatsapp.net").
Proof.
  intros H. apply upsert_emitted in H.
  destruct H as (message & s & _ & _ & _ & Hr & _ & _ & ->).
  exists s. split; [exact Hr |]. split; [| split].
  - rewrite lookup_set_same. now rewrite formatPhone_unfold.
  - apply ends_with_app.
  - apply domain_of_cases.
Qed.

Lemma upsert_from_is_domain_qualified_witness :
  exists p s,
    busEvents.upsert Samples.E0 Samples.hi = Emitted p
    /\ Js.opt_get (Js.opt_get (hd VUndef (messages Samples.hi)) "key") "remoteJid"
       = VStr s
    /\ Js.lookup "from" p
       = Some (VStr (utils.formatPhone s true ++ utils.domain_of s)).
Proof.
  eexists.
  destruct (upsert_from_is_domain_qualified Samples.E0 Samples.hi _ eq_refl)
    as (s & Hr & Hfrom & _).
  exists s. split; [reflexivity |]. split; [exact Hr | exact Hfrom].
Defined.

(** C9: in an emitted message the [body] is the list-item title when that is
    set, else the quick-reply display text when that is set, else the body
    the classification gave; the [type] is the classified one; and the
    override step changes no field other than [body] (after it, only [from]
    is rewritten). *)
Theorem upsert_reply_overrides_body_only (E : env) (ev : upsert_event) (p : object) :
  busEvents.upsert E ev = Emitted p ->
  exists message,
    Js.get (hd VUndef (messages ev)) "message" = Some message
    /\ let c := busEvents.classified E (hd VUndef (messages ev)) message in
       let btn := Js.opt_get (Js.opt_get (Js.opt_get (VObj c) "message")
                                "buttonsResponseMessage") "selectedDisplayText" in
       let lst := Js.opt_get (Js.opt_get (Js.opt_get (VObj c) "message")
                                "listResponseMessage") "title" in
       Js.lookup "body" p
       = (if Js.truthy lst then Some lst
          else if Js.truthy btn then Some btn
          else Js.lookup "body" c)
       /\ Js.lookup "type" p = Js.lookup "type" c
       /\ (forall k, k <> "body" ->
             Js.lookup k (busEvents.apply_reply_overrides c) = Js.lookup k c)
       /\ (forall k, k <> "body" -> k <> "from" -> Js.lookup k p = Js.lookup k c).
Proof.
  intros H. apply upsert_emitted in H.
  destruct H as (message & s & _ & Hm & _ & _ & _ & _ & ->).
  exists message. split; [exact Hm |]. cbv zeta.
  set (c := busEvents.classified E (hd VUndef (messages ev)) message).
  repeat split.
  - rewrite lookup_set_other by discriminate.
    unfold busEvents.apply_reply_overrides.
    unfold busEvents.reply_override at 1.
    rewrite (opt_get_lookup _ c "message")
      by (apply reply_override_frame; discriminate).
    destruct (Js.truthy (Js.opt_get (Js.opt_get (Js.opt_get (VObj c) "message")
                "listResponseMessage") "title")).
    + apply lookup_set_same.
    + unfold busEvents.reply_override.
      destruct (Js.truthy _); [apply lookup_set_same | reflexivity].
  - rewrite lookup_set_other by discriminate.
    apply apply_reply_overrides_frame. discriminate.
  - intros k Hk. now apply apply_reply_overrides_frame.
  - intros k Hb Hf. rewrite lookup_set_other by congruence.
    now apply apply_reply_overrides_frame.
Qed.

Lemma upsert_reply_overrides_body_only_witness :
  exists p,
    busEvents.upsert Samples.E0 Samples.image_with_button_reply = Emitted p
    /\ Js.lookup "body" p = Some (VStr "Yes")
    /\ Js.lookup "type" p = Some (VStr "image").
Proof.
  eexists.
  destruct (upsert_reply_overrides_body_only Samples.E0
              Samples.image_with_button_reply _ eq_refl)
    as (message & Hm & Hbody & Htype & _).
  injection Hm as <-.
  split; [reflexivity |]. split; [exact Hbody | exact Htype].
Defined.

(** ** The [messages.update] handler *)

Section PollUpdate.

Import Js busEvents.

Variable E : env.

(** The payload emitted for the entry [entry] of the batch [message]. *)
Lemma update_entry_found (message : list value) (entry pollUpdates pollCreation
      from : value) (tr : list effect) :
  nullish entry = false ->
  get (opt_get entry "update") "pollUpdates" = Some pollUpdates ->
  truthy pollUpdates = true ->
  getMessage E (opt_get entry "key") = Some pollCreation ->
  truthy pollCreation = true ->
  get (opt_get entry "key") "remoteJid" = Some from ->
  update_entry E message entry tr
  = (Return tt,
     (tr ++ [Emit "message"
               (VObj (extend (spread (hd VUndef message))
                        [("body", VStr (poll_body
                            (getAggregateVotesInPollMessage E pollCreation pollUpdates)));
                         ("from", from);
                         ("voters", pollCreation);
                         ("type", VStr "poll")]))])%list).
Proof.
  intros Hn Hu Ht Hg Hc Hf. unfold update_entry, bind, of_option.
  rewrite Hn. cbn [ret fst snd]. rewrite Hu. cbn [ret]. rewrite Ht, Hg.
  cbn [ret]. rewrite Hc, Hf. reflexivity.
Qed.

(** No poll creation found: nothing is emitted for the entry. *)
Lemma update_entry_unknown (message : list value) (entry pollUpdates : value)
      (tr : list effect) :
  nullish entry = false ->
  get (opt_get entry "update") "pollUpdates" = Some pollUpdates ->
  truthy pollUpdates = true ->
  getMessage E (opt_get entry "key") = Some VUndef ->
  update_entry E message entry tr = (Return tt, tr).
Proof.
  intros Hn Hu Ht Hg. unfold update_entry, bind, of_option.
  rewrite Hn. cbn [ret fst snd]. rewrite Hu. cbn [ret]. rewrite Ht, Hg.
  reflexivity.
Qed.

Lemma update_entry_trace (message : list value) (entry : value)
      (tr tr' : list effect) (r : outcome unit) :
  In entry message ->
  update_entry E message entry tr = (r, tr') ->
  exists added, tr' = (tr ++ added)%list /\ Forall (poll_emission E message) added.
Proof.
  intros Hin. unfold update_entry, bind, of_option.
  destruct (nullish entry) eqn:Hn; cbn [ret throw fst snd].
  { intros [= <- <-]. exists []. now rewrite app_nil_r. }
  destruct (get (opt_get entry "update") "pollUpdates") as [pollUpdates |] eqn:Hu;
    cbn [ret throw].
  2: { intros [= <- <-]. exists []. now rewrite app_nil_r. }
  destruct (truthy pollUpdates) eqn:Ht.
  2: { intros [= <- <-]. exists []. now rewrite app_nil_r. }
  destruct (getMessage E (opt_get entry "key")) as [pollCreation |] eqn:Hg;
    cbn [ret throw].
  2: { intros [= <- <-]. exists []. now rewrite app_nil_r. }
  destruct (truthy pollCreation) eqn:Hc.
  2: { intros [= <- <-]. exists []. now rewrite app_nil_r. }
  destruct (get (opt_get entry "key") "remoteJid") as [from |] eqn:Hf;
    cbn [ret throw].
  2: { intros [= <- <-]. exists []. now rewrite app_nil_r. }
  unfold perform. intros [= <- <-]. eexists. split; [reflexivity |].
  constructor; [| constructor].
  exists entry, pollUpdates, pollCreation. eexists.
  repeat split; try eassumption; try reflexivity; unfold extend; simpl.
  - apply lookup_set_same.
  - rewrite lookup_set_other by discriminate. apply lookup_set_same.
  - rewrite !lookup_set_other by discriminate. apply lookup_set_same.
Qed.

Lemma update_loop_trace (message rest : list value) :
  incl rest message ->
  forall (tr tr' : list effect) (r : outcome unit),
    update_loop E message rest tr = (r, tr') ->
    exists added, tr' = (tr ++ added)%list /\ Forall (poll_emission E message) added.
Proof.
  induction rest as [| entry rest IH]; intros Hincl tr tr' r.
  - cbn. intros [= <- <-]. exists []. now rewrite app_nil_r.
  - cbn [update_loop]. unfold bind at 1.
    destruct (update_entry E message entry tr) as [r1 tr1] eqn:H1.
    apply update_entry_trace in H1 as (a1 & -> & Ha1);
      [| apply Hincl; now left].
    assert (Hrest : incl rest message)
      by (intros x Hx; apply Hincl; now right).
    destruct r1 as [[] | e |].
    + intros H2. apply (IH Hrest) in H2 as (a2 & -> & Ha2).
      exists (a1 ++ a2)%list. split; [now rewrite app_assoc |].
      apply Forall_app. now split.
    + intros [= <- <-]. now exists a1.
    + intros [= <- <-]. now exists a1.
Qed.

(** [poll_body] is the name of the first option that has a voter. *)
Lemma poll_body_first_voted (before after : list poll_option) (o : poll_option) :
  Forall (fun x => voters x = []) before ->
  voters o <> [] ->
  poll_body (before ++ o :: after) = name o.
Proof.
  intros Hb Ho. unfold poll_body.
  induction Hb as [| x before Hx Hb IH]; cbn.
  - destruct (voters o); [contradiction | reflexivity].
  - rewrite Hx. cbn. exact IH.
Qed.

Lemma poll_body_none_voted (l : list poll_option) :
  Forall (fun x => voters x = []) l -> poll_body l = "".
Proof.
  intros Hl. unfold poll_body.
  induction Hl as [| x l Hx Hl IH]; cbn; [reflexivity |].
  rewrite Hx. cbn. exact IH.
Qed.

End PollUpdate.

(** C3, as stated, fails on the body: with one vote for the first option and
    two for the second, the emitted [body] is the first option's name, not
    the name of the option with the most voters. *)
Lemma poll_body_is_not_most_voted :
  exists pollCreation p,
    run (busEvents.update Samples.E0 Samples.poll_update)
    = (Return tt, [Emit "message" (VObj p)])
    /\ Js.lookup "voters" p = Some pollCreation
    /\ Js.lookup "body" p = Some (VStr "Pizza")
    /\ Spec.most_voted_name
         (getAggregateVotesInPollMessage Samples.E0 pollCreation (VArr [VObj []]))
       = "Sushi".
Proof. do 2 eexists. repeat split; reflexivity. Qed.

(** C3 (amended): every message the [messages.update] handler emits comes
    from an entry whose poll-creation message was found, has type [poll],
    holds that poll-creation content in [voters], and has as [body] the name
    of the first option, in the order of the aggregate, that has at least
    one voter, or the empty string when no option has a voter; and an entry
    carrying poll updates whose poll creation is found does emit it. *)
Theorem update_emits_first_voted_option (E : env) (message : list value) :
  (forall r tr, run (busEvents.update E message) = (r, tr) ->
                Forall (poll_emission E message) tr)
  /\ (forall entry pollUpdates pollCreation from tr,
        Js.nullish entry = false ->
        Js.get (Js.opt_get entry "update") "pollUpdates" = Some pollUpdates ->
        Js.truthy pollUpdates = true ->
        busEvents.getMessage E (Js.opt_get entry "key") = Some pollCreation ->
        Js.truthy pollCreation = true ->
        Js.get (Js.opt_get entry "key") "remoteJid" = Some from ->
        exists p,
          busEvents.update_entry E message entry tr
          = (Return tt, (tr ++ [Emit "message" (VObj p)])%list)
          /\ Js.lookup "type" p = Some (VStr "poll")
          /\ Js.lookup "voters" p = Some pollCreation
          /\ Js.lookup "body" p
             = Some (VStr (busEvents.poll_body
                    (getAggregateVotesInPollMessage E pollCreation pollUpdates))))
  /\ (forall before o after,
        Forall (fun x => voters x = []) before -> voters o <> [] ->
        busEvents.poll_body (before ++ o :: after) = name o)
  /\ (forall l, Forall (fun x => voters x = []) l -> busEvents.poll_body l = "").
Proof.
  repeat split.
  - intros r tr H. unfold run, busEvents.update in H.
    apply update_loop_trace in H as (added & -> & Hadd);
      [assumption | apply incl_refl].
  - intros entry pollUpdates pollCreation from tr Hn Hu Ht Hg Hc Hf.
    eexists. split;
      [now apply (update_entry_found E message entry pollUpdates pollCreation from tr) |].
    unfold Js.extend; simpl. repeat split.
    + apply lookup_set_same.
    + rewrite lookup_set_other by discriminate. apply lookup_set_same.
    + rewrite !lookup_set_other by discriminate. apply lookup_set_same.
  - intros. now apply poll_body_first_voted.
  - intros. now apply poll_body_none_voted.
Qed.

Lemma update_emits_first_voted_option_witness :
  Forall (poll_emission Samples.E0 Samples.poll_update)
    [Emit "message"
       (VObj (Js.extend (Js.spread (hd VUndef Samples.poll_update))
                [("body", VStr "Pizza");
                 ("from", VStr "123@s.whatsapp.net");
                 ("voters", VObj [("pollCreationMessage",
                                   VObj [("name", VStr "Lunch?")])]);
                 ("type", VStr "poll")]))]
  /\ busEvents.poll_body
       ([ {| name := "Tacos"; voters := [] |} ]
        ++ {| name := "Pizza"; voters := ["a@s.whatsapp.net"] |}
        :: [ {| name := "Sushi"; voters := ["b@s.whatsapp.net"; "c@s.whatsapp.net"] |} ])
     = "Pizza".
Proof.
  destruct (update_emits_first_voted_option Samples.E0 Samples.poll_update)
    as (Hall & _ & Hfirst & _).
  split.
  - apply (Hall (Return tt)). reflexivity.
  - apply Hfirst; [repeat constructor | discriminate].
Defined.

(** ** Connection lifecycle *)

Section ConnectionClose.

Import Js Lifecycle.

Variable E : env.

Lemma close_is_not_open (v : value) :
  is_string "close" v = true -> is_string "open" v = false.
Proof.
  destruct v; try discriminate. cbn [is_string]. intros H.
  apply String.eqb_eq in H. now subst.
Qed.

(** Logged out, where the global object does not define [join] or
    [rimraf]: [clearSessionAndRestart] raises, the rest of the handler is
    skipped and the world is left as it was. *)
Lemma close_logged_out_unbound (update : connection_update) (w : world) :
  is_string "close" (connection update) = true ->
  is_num (loggedOut E) (statusCode update) = true ->
  global_bound E "join" && global_bound E "rimraf" = false ->
  handle_sync E update w = (Throw ReferenceError, (w, false)).
Proof.
  intros Hc Hl Hg. unfold handle_sync, on_close, clearSessionAndRestart.
  now rewrite Hc, Hl, Hg.
Qed.

(** Logged out, where the global object defines both names: the delete is
    issued first; the restart follows its successful completion and starts
    from an empty session. *)
Lemma close_logged_out (update : connection_update) (w : world) :
  is_string "close" (connection update) = true ->
  is_num (loggedOut E) (statusCode update) = true ->
  global_bound E "join" && global_bound E "rimraf" = true ->
  handleConnectionUpdate E update w
  = let announce :=
      if truthy (qr update) then [Emit "qr" (qr update)] else [] in
    if rimraf_fails E (PATH_BASE E)
    then {| session_on_disk := session_on_disk w;
            log := (log w ++ Rimraf (PATH_BASE E) :: announce)%list |}
    else {| session_on_disk := false;
            log := (log w ++ Rimraf (PATH_BASE E) :: announce
                    ++ [InitBailey false])%list |}.
Proof.
  intros Hc Hl Hg.
  unfold handleConnectionUpdate, handle_sync, on_close, clearSessionAndRestart.
  rewrite Hc, (close_is_not_open _ Hc), Hl, Hg. cbn [negb snd].
  unfold rimraf_completes, initBailey, record.
  destruct (truthy (qr update)), (rimraf_fails E (PATH_BASE E)); cbn;
    rewrite <- ?app_assoc; reflexivity.
Qed.

(** Any other reason: the restart is the first thing done, nothing is
    deleted. *)
Lemma close_other_reason (update : connection_update) (w : world) :
  is_string "close" (connection update) = true ->
  is_num (loggedOut E) (statusCode update) = false ->
  settlement E update w = Return tt
  /\ handleConnectionUpdate E update w
     = let announce :=
         if truthy (qr update) then [Emit "qr" (qr update)] else [] in
       {| session_on_disk := session_on_disk w;
          log := (log w ++ InitBailey (session_on_disk w) :: announce)%list |}.
Proof.
  intros Hc Hl.
  unfold settlement, handleConnectionUpdate, handle_sync, on_close.
  rewrite Hc, (close_is_not_open _ Hc), Hl. cbn [negb fst snd].
  split; [reflexivity |]. unfold initBailey, record.
  destruct (truthy (qr update)); cbn; rewrite <- ?app_assoc; reflexivity.
Qed.

End ConnectionClose.

(** C2: as the adapter is written the first half of the claim fails.  On a
    close with the logged-out status code, [clearSessionAndRestart] evaluates
    [join] and [rimraf], which the adapter neither imports nor defines:
    where the global object does not define them either, the handler's
    promise rejects with a ReferenceError, nothing is deleted, no connecting
    cycle is started and the rest of the handler (the QR announcement) is
    skipped.  The second half holds: on a close with any other status code
    the connecting cycle is started at once, from the session on disk, and
    nothing is deleted. *)
Theorem close_logged_out_raises (E : env) (update : connection_update) (w : world) :
  Js.is_string "close" (connection update) = true ->
  (Lifecycle.is_num (loggedOut E) (Lifecycle.statusCode update) = true ->
   global_bound E "join" = false \/ global_bound E "rimraf" = false ->
   Lifecycle.settlement E update w = Throw ReferenceError
   /\ Lifecycle.handleConnectionUpdate E update w = w)
  /\ (Lifecycle.is_num (loggedOut E) (Lifecycle.statusCode update) = false ->
      Lifecycle.settlement E update w = Return tt
      /\ Lifecycle.handleConnectionUpdate E update w
         = {| session_on_disk := session_on_disk w;
              log := (log w ++ InitBailey (session_on_disk w)
                      :: (if Js.truthy (qr update)
                          then [Emit "qr" (qr update)] else []))%list |}).
Proof.
  intros Hc. split.
  - intros Hl Hg.
    assert (Hb : global_bound E "join" && global_bound E "rimraf" = false)
      by (destruct Hg as [-> | ->]; [reflexivity | apply andb_false_r]).
    unfold Lifecycle.settlement, Lifecycle.handleConnectionUpdate.
    rewrite (close_logged_out_unbound E update w Hc Hl Hb). now split.
  - intros Hl. now apply close_other_reason.
Qed.

Lemma close_logged_out_raises_witness :
  Lifecycle.settlement MoreSamples.plain_node Samples.close_logged_out Samples.w0
  = Throw ReferenceError
  /\ Lifecycle.handleConnectionUpdate MoreSamples.plain_node
       Samples.close_logged_out Samples.w0
     = Samples.w0
  /\ Lifecycle.handleConnectionUpdate MoreSamples.plain_node
       Samples.close_timed_out Samples.w0
     = {| session_on_disk := true; log := [InitBailey true] |}.
Proof.
  destruct (close_logged_out_raises MoreSamples.plain_node
              Samples.close_logged_out Samples.w0 eq_refl) as [Hout _].
  destruct (close_logged_out_raises MoreSamples.plain_node
              Samples.close_timed_out Samples.w0 eq_refl) as [_ Hother].
  destruct (Hout eq_refl (or_introl eq_refl)) as [Hs Hw].
  split; [exact Hs |]. split; [exact Hw |].
  exact (proj2 (Hother eq_refl)).
Defined.

(** ** Outbound routing *)

Section SendMessage.

Import Js Senders.

Variable E : env.

(** With buttons, the call is [sendPoll] on the button labels. *)
Lemma sendMessage_buttons (numberIn : string) (message : value)
      (arg : send_arg) (o : send_options) (b : button) (bs : list button) :
  options arg = Some o ->
  buttons o = Some (b :: bs) ->
  sendMessage E numberIn message (Some arg)
  = sendPoll E (utils.formatPhone numberIn false) message (map body (b :: bs)).
Proof. intros Ho Hb. unfold sendMessage. now rewrite Ho, Hb. Qed.

(** Without options, the call is [sendText]. *)
Lemma sendMessage_plain (numberIn : string) (message : value) (arg : send_arg) :
  options arg = None ->
  sendMessage E numberIn message (Some arg)
  = sendText E (utils.formatPhone numberIn false) message.
Proof. intros Ho. unfold sendMessage. now rewrite Ho. Qed.

Lemma vendor_sendMessage_run (send : string -> value -> option value)
      (jid : string) (content : value) :
  vendor E = Some send ->
  run (vendor_sendMessage E jid content)
  = (match send jid content with
     | Some ack => Return ack
     | None => Throw VendorError
     end, [VendorSend jid content]).
Proof.
  intros Hv. unfold run, vendor_sendMessage. rewrite Hv.
  unfold bind, perform, of_option. cbn.
  destruct (send jid content); reflexivity.
Qed.

End SendMessage.

(** C5: a [sendMessage] call whose [options.buttons] holds exactly one entry
    (non-empty, fewer than two) returns [false] and performs no effect, so
    no [sendMessage] of the connection; with two or more entries, and a
    connection in place, the one effect is a [sendMessage] of the connection
    carrying a poll named by the message, whose values are the button
    labels in order and whose [selectableCount] is 1. *)
Theorem sendMessage_buttons_as_poll (E : env) (numberIn : string) (message : value)
        (arg : send_arg) (o : send_options) (bs : list button) :
  options arg = Some o ->
  buttons o = Some bs ->
  (bs <> [] -> List.length bs < 2 ->
   run (Senders.sendMessage E numberIn message (Some arg))
   = (Return (VBool false), []))
  /\ (2 <= List.length bs ->
      forall send, vendor E = Some send ->
      let jid := utils.formatPhone (utils.formatPhone numberIn false) false in
      let content :=
        VObj [("poll", VObj [("name", message);
                             ("values", VArr (map body bs));
                             ("selectableCount", VNum 1%float)])] in
      run (Senders.sendMessage E numberIn message (Some arg))
      = (match send jid content with
         | Some ack => Return ack
         | None => Throw VendorError
         end, [VendorSend jid content])).
Proof.
  intros Ho Hb. split.
  - intros Hne Hlt. destruct bs as [| b [| b' bs]]; [contradiction | | simpl in Hlt; lia].
    now rewrite (sendMessage_buttons E numberIn message arg o b [] Ho Hb).
  - intros Hle send Hv jid content.
    destruct bs as [| b [| b' bs]]; [simpl in Hle; lia | simpl in Hle; lia |].
    rewrite (sendMessage_buttons E numberIn message arg o b (b' :: bs) Ho Hb).
    unfold Senders.sendPoll. cbn [map List.length Nat.ltb Nat.leb].
    now apply vendor_sendMessage_run.
Qed.

Lemma sendMessage_buttons_as_poll_witness :
  run (Senders.sendMessage Samples.E0 "573001112233" (VStr "Pick")
         (Some Samples.one_button))
  = (Return (VBool false), [])
  /\ run (Senders.sendMessage Samples.E0 "573001112233" (VStr "Pick")
            (Some Samples.two_buttons))
     = (Return (VObj [("status", VNum 1%float)]),
        [VendorSend "573001112233@s.whatsapp.net"
           (VObj [("poll", VObj [("name", VStr "Pick");
                                 ("values", VArr [VStr "Yes"; VStr "No"]);
                                 ("selectableCount", VNum 1%float)])])]).
Proof.
  split.
  - apply (proj1 (sendMessage_buttons_as_poll Samples.E0 "573001112233"
                    (VStr "Pick") Samples.one_button _ _ eq_refl eq_refl)).
    + discriminate.
    + simpl. lia.
  - apply (proj2 (sendMessage_buttons_as_poll Samples.E0 "573001112233"
                    (VStr "Pick") Samples.two_buttons _ _ eq_refl eq_refl)
             (le_n 2) _ eq_refl).
Defined.

(** C10: [sendMessage] called without a third argument raises a TypeError
    before anything is done; whenever a call performs a text send of the
    connection, a third argument was supplied; and with a third argument
    that carries no options the message is sent as text. *)
Theorem sendMessage_needs_third_argument (E : env) (numberIn : string)
        (message : value) :
  run (Senders.sendMessage E numberIn message None) = (Throw TypeError, [])
  /\ (forall third r tr jid,
        run (Senders.sendMessage E numberIn message third) = (r, tr) ->
        In (VendorSend jid (VObj [("text", message)])) tr ->
        exists arg, third = Some arg)
  /\ (forall arg send,
        options arg = None -> vendor E = Some send ->
        let jid := utils.formatPhone (utils.formatPhone numberIn false) false in
        run (Senders.sendMessage E numberIn message (Some arg))
        = (match send jid (VObj [("text", message)]) with
           | Some ack => Return ack
           | None => Throw VendorError
           end, [VendorSend jid (VObj [("text", message)])])).
Proof.
  split; [reflexivity |]. split.
  - intros [arg |] r tr jid Hrun Hin; [now exists arg |].
    cbv in Hrun. injection Hrun as _ <-. contradiction.
  - intros arg send Ho Hv jid.
    rewrite (sendMessage_plain E numberIn message arg Ho).
    unfold Senders.sendText. now apply vendor_sendMessage_run.
Qed.

Lemma sendMessage_needs_third_argument_witness :
  run (Senders.sendMessage Samples.E0 "573001112233" (VStr "hello") None)
  = (Throw TypeError, [])
  /\ run (Senders.sendMessage Samples.E0 "573001112233" (VStr "hello")
            (Some Samples.no_options))
     = (Return (VObj [("status", VNum 1%float)]),
        [VendorSend "573001112233@s.whatsapp.net" (VObj [("text", VStr "hello")])]).
Proof.
  destruct (sendMessage_needs_third_argument Samples.E0 "573001112233"
              (VStr "hello")) as (Hnone & _ & Htext).
  split; [exact Hnone |].
  exact (Htext Samples.no_options _ eq_refl eq_refl).
Defined.

(** ** Media acquisition *)

Section LocalAcquisition.

Variable E : env.

(** [generalDownload] on a reference that exists locally, whatever the
    global object defines. *)
Lemma generalDownload_local (url : string) :
  existsSync E url = true ->
  let tmp := tmpdir E ++ "/" ++ "tmp-" ++ JsString.of_nat (Date_now E) ++ "-dat" in
  let target :=
    url ++ "."
    ++ utils.render_ext (match mime_contentType E (extname E url) with
                         | Some t => mime_extension E t
                         | None => None
                         end) in
  run (utils.generalDownload E url)
  = if global_bound E "mime" && global_bound E "extname"
    then (if rename_fails E url target then Throw RejectedNull else Return target,
          [CreateWriteStream tmp; Rename url target])
    else (Throw ReferenceError, [CreateWriteStream tmp]).
Proof.
  intros Hlocal tmp target.
  unfold run, utils.generalDownload, utils.handleDownload, utils.handleFile,
    utils.fileTypeFromFile, resolve.
  rewrite Hlocal. unfold bind, perform, ret, throw. cbn [app fst snd].
  destruct (global_bound E "mime"); [| reflexivity].
  destruct (global_bound E "extname"); [| reflexivity].
  cbn [andb fst snd]. fold target.
  destruct (rename_fails E url target); reflexivity.
Qed.

End LocalAcquisition.

(** C6: as [utils.js] is written only the first part of the claim holds.  A
    reference that exists locally, whatever its shape, is treated as local
    and no HTTP request is issued.  But the content type is resolved by
    [mime.contentType(extname(url))], and [utils.js] imports neither [mime]
    nor [extname]: where the global object does not define them either,
    [generalDownload] rejects with a ReferenceError once the temporary write
    stream is created, with no content type resolved, no rename and no path
    returned. *)
Theorem generalDownload_local_raises (E : env) (url : string) :
  existsSync E url = true ->
  let tmp := tmpdir E ++ "/" ++ "tmp-" ++ JsString.of_nat (Date_now E) ++ "-dat" in
  (forall r tr secure u,
     run (utils.generalDownload E url) = (r, tr) -> ~ In (HttpGet secure u) tr)
  /\ (global_bound E "mime" = false \/ global_bound E "extname" = false ->
      run (utils.generalDownload E url)
      = (Throw ReferenceError, [CreateWriteStream tmp])).
Proof.
  intros Hlocal tmp. pose proof (generalDownload_local E url Hlocal) as Hrun.
  cbv zeta in Hrun. fold tmp in Hrun. split.
  - intros r tr secure u H. rewrite Hrun in H.
    destruct (global_bound E "mime" && global_bound E "extname");
      injection H as _ <-; cbn; intuition discriminate.
  - intros Hg. rewrite Hrun.
    destruct Hg as [-> | ->]; [reflexivity | now rewrite andb_false_r].
Qed.

Lemma generalDownload_local_raises_witness :
  run (utils.generalDownload MoreSamples.plain_node "/tmp/existing/file.png")
  = (Throw ReferenceError, [CreateWriteStream "/tmp/tmp-1700-dat"]).
Proof.
  exact (proj2 (generalDownload_local_raises MoreSamples.plain_node
                  "/tmp/existing/file.png" eq_refl) (or_introl eq_refl)).
Defined.

(* ===================================================================== *)
(** * Further properties of the inbound handlers *)
(* ===================================================================== *)

Section SpreadFacts.

Import Js.

Lemma of_nat_starts_with_digit (n : nat) :
  exists c s, JsString.of_nat n = String c s /\ is_digit c = true.
Proof.
  unfold JsString.of_nat. destruct (Nat.to_uint n); simpl;
    do 2 eexists; (split; [reflexivity | reflexivity]).
Qed.

Lemma lookup_indexed_name (c : ascii) (k : string) (l : list value) (n : nat) :
  is_digit c = false -> lookup (String c k) (indexed n l) = None.
Proof.
  intros Hc. revert n. induction l as [| v l IH]; intros n; [reflexivity |].
  cbn [indexed lookup].
  destruct (of_nat_starts_with_digit n) as (d & s & -> & Hd).
  cbn [String.eqb]. destruct (Ascii.eqb_spec c d) as [-> |]; [congruence |].
  apply IH.
Qed.

(** Reading a named property off [{ ...v }] is reading it off [v]. *)
Lemma opt_get_spread (v : value) (c : ascii) (k : string) :
  is_digit c = false ->
  opt_get (VObj (spread v)) (String c k) = opt_get v (String c k).
Proof.
  intros Hc. destruct v; try reflexivity; unfold opt_get, spread.
  - now rewrite lookup_indexed_name.
  - now rewrite lookup_indexed_name.
Qed.

End SpreadFacts.

Section UpsertOutcome.

Import Js busEvents.

Variable E : env.

Lemma get_nullish (v : value) (k : string) :
  get v k = if nullish v then None else Some (opt_get v k).
Proof. reflexivity. Qed.

(** The fields the handler sets aside, every own property of the raw
    message is in the first payload. *)
Lemma initial_payload_keeps (ctx : value) (k : string) :
  k <> "body" -> k <> "from" -> k <> "type" ->
  lookup k (initial_payload ctx) = lookup k (spread ctx).
Proof.
  intros Hb Hf Ht. unfold initial_payload, extend. simpl.
  now rewrite !lookup_set_other by congruence.
Qed.

Lemma initial_payload_key (ctx : value) :
  opt_get (VObj (initial_payload ctx)) "key" = opt_get ctx "key".
Proof.
  rewrite <- (opt_get_spread ctx "k" "ey" eq_refl).
  apply opt_get_lookup. apply initial_payload_keeps; discriminate.
Qed.

Lemma classified_message (ctx message : value) :
  opt_get (VObj (classified E ctx message)) "message" = opt_get ctx "message".
Proof.
  rewrite <- (opt_get_spread ctx "m" "essage" eq_refl).
  apply opt_get_lookup. unfold classified.
  rewrite classify_frame by discriminate. cbn [fst].
  apply initial_payload_keeps; discriminate.
Qed.

(** The handler, as a function of the raw event alone. *)
Lemma upsert_cases (ev : upsert_event) :
  let ctx := hd VUndef (messages ev) in
  let message := opt_get ctx "message" in
  let jid := opt_get (opt_get ctx "key") "remoteJid" in
  upsert E ev
  = if negb (is_string "notify" (type ev)) then Dropped
    else if nullish ctx then Raised TypeError
    else if truthy (opt_get message "pollUpdateMessage") then Dropped
    else if is_string "status@broadcast" jid then Dropped
    else if truthy (opt_get (opt_get ctx "key") "fromMe") then Dropped
    else match jid with
         | VStr s =>
             Emitted (set "from" (VStr (utils.formatPhone s false))
                        (apply_reply_overrides (classified E ctx message)))
         | _ => Raised TypeError
         end.
Proof.
  intros ctx message jid. unfold upsert. fold ctx.
  destruct (negb (is_string "notify" (type ev))); [reflexivity |].
  rewrite get_nullish. destruct (nullish ctx); [reflexivity |].
  fold message.
  destruct (truthy (opt_get message "pollUpdateMessage")); [reflexivity |].
  unfold opt_get at 1. rewrite initial_payload_from. fold jid.
  destruct (is_string "status@broadcast" jid); [reflexivity |].
  rewrite initial_payload_key.
  destruct (truthy (opt_get (opt_get ctx "key") "fromMe")); [reflexivity |].
  rewrite classified_from, overridden_from. fold jid.
  destruct jid; try reflexivity.
  cbn [utils.formatPhone_value]. now rewrite formatPhone_truthy.
Qed.

(** Without a reply selection the emitted body is the classified one. *)
Lemma body_without_reply (ctx message : value) (from : value) :
  let m := opt_get ctx "message" in
  truthy (opt_get (opt_get m "buttonsResponseMessage") "selectedDisplayText") = false ->
  truthy (opt_get (opt_get m "listResponseMessage") "title") = false ->
  lookup "body" (set "from" from (apply_reply_overrides (classified E ctx message)))
  = lookup "body" (classified E ctx message).
Proof.
  intros m Hb Hl. rewrite lookup_set_other by discriminate.
  unfold apply_reply_overrides, reply_override at 1.
  rewrite (opt_get_lookup _ (classified E ctx message) "message")
    by (apply reply_override_frame; discriminate).
  rewrite classified_message. fold m. rewrite Hl.
  unfold reply_override. rewrite classified_message. fold m. now rewrite Hb.
Qed.

Lemma detect_body (message : value) (k prefix ty : string) (d : draft) :
  lookup "body" (fst (detect E message k prefix ty d))
  = if truthy (opt_get message k)
    then Some (VStr (utils.generateRefprovider prefix (randomUUID E (snd d))))
    else lookup "body" (fst d).
Proof.
  unfold detect. destruct (truthy (opt_get message k)); [| reflexivity].
  unfold extend. simpl. rewrite lookup_set_other by discriminate.
  apply lookup_set_same.
Qed.

Lemma detect_location_body (message : value) (d : draft) :
  lookup "body" (fst (detect_location E message d))
  = let loc := opt_get message "locationMessage" in
    if truthy loc && is_number (opt_get loc "degreesLatitude")
       && is_number (opt_get loc "degreesLongitude")
    then Some (VStr (utils.generateRefprovider "_event_location_"
                       (randomUUID E (snd d))))
    else lookup "body" (fst d).
Proof.
  unfold detect_location. cbv zeta.
  destruct (truthy (opt_get message "locationMessage")); [| reflexivity].
  cbn [andb]. destruct (is_number _ && is_number _); [| reflexivity].
  unfold extend. simpl. rewrite lookup_set_other by discriminate.
  apply lookup_set_same.
Qed.

(** Each detection statement draws at most one UUID. *)
Lemma detect_count (message : value) (k prefix ty : string) (d : draft) :
  snd d <= snd (detect E message k prefix ty d) <= S (snd d).
Proof. unfold detect. destruct (truthy _); cbn [snd]; lia. Qed.

Lemma detect_location_count (message : value) (d : draft) :
  snd d <= snd (detect_location E message d) <= S (snd d).
Proof.
  unfold detect_location. destruct (truthy _); [| lia].
  destruct (is_number _ && is_number _); cbn [snd]; lia.
Qed.

End UpsertOutcome.

(** X1: the [messages.upsert] handler emits a message exactly when the event
    is a notify whose first message exists, carries no poll update, is not
    from the bot itself, and has a string sender other than the status
    broadcast. *)
Theorem upsert_emits_exactly_when (E : env) (ev : upsert_event) :
  let ctx := hd VUndef (messages ev) in
  (exists p, busEvents.upsert E ev = Emitted p) <->
  Js.is_string "notify" (type ev) = true
  /\ Js.nullish ctx = false
  /\ Js.truthy (Js.opt_get (Js.opt_get ctx "message") "pollUpdateMessage") = false
  /\ Js.truthy (Js.opt_get (Js.opt_get ctx "key") "fromMe") = false
  /\ exists s, Js.opt_get (Js.opt_get ctx "key") "remoteJid" = VStr s
               /\ s <> "status@broadcast".
Proof.
  intros ctx. rewrite upsert_cases. fold ctx.
  destruct (Js.is_string "notify" (type ev)); cbn [negb].
  2: { split; [intros [p [=]] | intros [[=] _]]. }
  destruct (Js.nullish ctx).
  { split; [intros [p [=]] | intros (_ & [=] & _)]. }
  destruct (Js.truthy (Js.opt_get (Js.opt_get ctx "message") "pollUpdateMessage")).
  { split; [intros [p [=]] | intros (_ & _ & [=] & _)]. }
  destruct (Js.opt_get (Js.opt_get ctx "key") "remoteJid") as [| | | | s | |] eqn:Hj;
    cbn [Js.is_string];
    try solve [ destruct (Js.truthy (Js.opt_get (Js.opt_get ctx "key") "fromMe"));
                (split; [intros [p [=]] | intros (_ & _ & _ & _ & s' & [=] & _)]) ].
  destruct (String.eqb_spec s "status@broadcast") as [-> | Hs].
  { split; [intros [p [=]] | intros (_ & _ & _ & _ & s' & [= <-] & Hs)];
      now contradiction Hs. }
  destruct (Js.truthy (Js.opt_get (Js.opt_get ctx "key") "fromMe")).
  { split; [intros [p [=]] | intros (_ & _ & _ & [=] & _)]. }
  split; [| intros _; eexists; reflexivity].
  intros _. repeat split. now exists s.
Qed.

(** X2: the handler raises, and then a TypeError, exactly when a notify
    event has no first message (an empty batch included), or passes the
    filters with a sender that is not a string. *)
Theorem upsert_raises_exactly_when (E : env) (ev : upsert_event) (e : error) :
  let ctx := hd VUndef (messages ev) in
  busEvents.upsert E ev = Raised e <->
  e = TypeError
  /\ Js.is_string "notify" (type ev) = true
  /\ (Js.nullish ctx = true
      \/ (Js.nullish ctx = false
          /\ Js.truthy (Js.opt_get (Js.opt_get ctx "message") "pollUpdateMessage")
             = false
          /\ Js.truthy (Js.opt_get (Js.opt_get ctx "key") "fromMe") = false
          /\ forall s, Js.opt_get (Js.opt_get ctx "key") "remoteJid" <> VStr s)).
Proof.
  intros ctx. rewrite upsert_cases. fold ctx.
  destruct (Js.is_string "notify" (type ev)); cbn [negb].
  2: { split; [intros [=] | intros (_ & [=] & _)]. }
  destruct (Js.nullish ctx).
  { split; [intros [= <-]; auto | intros (-> & _); reflexivity]. }
  destruct (Js.truthy (Js.opt_get (Js.opt_get ctx "message") "pollUpdateMessage")).
  { split; [intros [=] | intros (_ & _ & [[=] | (_ & [=] & _)])]. }
  destruct (Js.opt_get (Js.opt_get ctx "key") "remoteJid") as [| | | | s | |] eqn:Hj;
    cbn [Js.is_string];
    try solve [ destruct (Js.truthy (Js.opt_get (Js.opt_get ctx "key") "fromMe"));
                [ split; [intros [=] | intros (_ & _ & [[=] | (_ & _ & [=] & _)])]
                | split; [ intros [= <-]; repeat split; right; repeat split;
                           discriminate
                         | intros (-> & _); reflexivity ] ] ].
  assert (Hno : ~ (forall s0 : string, VStr s <> VStr s0))
    by (intros H; now apply (H s)).
  destruct (String.eqb s "status@broadcast").
  { split; [intros [=] | intros (_ & _ & [[=] | (_ & _ & _ & H)]); now apply Hno in H]. }
  destruct (Js.truthy (Js.opt_get (Js.opt_get ctx "key") "fromMe")).
  { split; [intros [=] | intros (_ & _ & [[=] | (_ & _ & [=] & _)])]. }
  split; [intros [=] | intros (_ & _ & [[=] | (_ & _ & _ & H)]); now apply Hno in H].
Qed.

Lemma upsert_raises_exactly_when_witness :
  busEvents.upsert Samples.E0 {| messages := []; type := VStr "notify" |}
  = Raised TypeError.
Proof.
  apply (proj2 (upsert_raises_exactly_when Samples.E0
                  {| messages := []; type := VStr "notify" |} TypeError)).
  split; [reflexivity |]. split; [reflexivity |]. left. reflexivity.
Defined.

Lemma upsert_emits_exactly_when_witness :
  exists p, busEvents.upsert Samples.E0 Samples.hi = Emitted p.
Proof.
  apply (proj2 (upsert_emits_exactly_when Samples.E0 Samples.hi)).
  repeat split. exists "123@s.whatsapp.net". split; [reflexivity | discriminate].
Defined.

(** X3: the emitted payload keeps every own property of the raw message
    other than [body], [from] and [type]. *)
Theorem upsert_keeps_raw_fields (E : env) (ev : upsert_event) (p : object)
        (k : string) :
  busEvents.upsert E ev = Emitted p ->
  k <> "body" -> k <> "from" -> k <> "type" ->
  Js.lookup k p = Js.lookup k (Js.spread (hd VUndef (messages ev))).
Proof.
  intros H Hb Hf Ht. apply upsert_emitted in H.
  destruct H as (message & s & _ & _ & _ & _ & _ & _ & ->).
  rewrite lookup_set_other by congruence.
  rewrite apply_reply_overrides_frame by assumption.
  unfold busEvents.classified. rewrite classify_frame by assumption.
  cbn [fst]. now apply initial_payload_keeps.
Qed.

Lemma upsert_keeps_raw_fields_witness :
  exists p,
    busEvents.upsert Samples.E0 Samples.hi = Emitted p
    /\ Js.lookup "message" p = Some (VObj [("conversation", VStr "hi")]).
Proof.
  eexists. split; [reflexivity |].
  apply (upsert_keeps_raw_fields Samples.E0 Samples.hi _ "message" eq_refl);
    discriminate.
Defined.

Section UpsertBody.

Import Js busEvents.

Variable E : env.

Lemma initial_payload_body (ctx : value) :
  let m := opt_get ctx "message" in
  lookup "body" (initial_payload ctx)
  = Some (coalesce (opt_get (opt_get m "extendedTextMessage") "text")
                   (opt_get m "conversation")).
Proof.
  unfold initial_payload, extend. simpl.
  rewrite !lookup_set_other by discriminate. apply lookup_set_same.
Qed.

(** Type and body of the classified payload, detection by detection. *)
Lemma classified_type_body (ctx m : value) :
  let loc := opt_get m "locationMessage" in
  let located := truthy loc && is_number (opt_get loc "degreesLatitude")
                 && is_number (opt_get loc "degreesLongitude") in
  exists k1 k2 k3,
    k1 <= 1 /\ k2 <= 2 /\ k3 <= 3
    /\ lookup "type" (classified E ctx m)
       = (if truthy (opt_get m "audioMessage") then Some (VStr "voice")
          else if truthy (opt_get m "documentMessage") then Some (VStr "file")
          else if truthy (opt_get m "imageMessage") then Some (VStr "image")
          else if located then Some (VStr "location")
          else Some (VStr "text"))
    /\ lookup "body" (classified E ctx m)
       = (if truthy (opt_get m "audioMessage")
          then Some (VStr ("_event_voice_note_" ++ "_" ++ randomUUID E k3))
          else if truthy (opt_get m "documentMessage")
          then Some (VStr ("_event_document_" ++ "_" ++ randomUUID E k2))
          else if truthy (opt_get m "imageMessage")
          then Some (VStr ("_event_media_" ++ "_" ++ randomUUID E k1))
          else if located
          then Some (VStr ("_event_location_" ++ "_" ++ randomUUID E 0))
          else lookup "body" (initial_payload ctx)).
Proof.
  intros loc located.
  pose (d1 := detect_location E m (initial_payload ctx, 0)).
  pose (d2 := detect E m "imageMessage" "_event_media_" "image" d1).
  pose (d3 := detect E m "documentMessage" "_event_document_" "file" d2).
  pose proof (detect_location_count E m (initial_payload ctx, 0)) as H1.
  pose proof (detect_count E m "imageMessage" "_event_media_" "image" d1) as H2.
  pose proof (detect_count E m "documentMessage" "_event_document_" "file" d2) as H3.
  cbn [snd] in H1.
  exists (snd d1), (snd d2), (snd d3).
  split; [subst d1; lia |]. split; [subst d2 d1; lia |].
  split; [subst d3 d2 d1; lia |].
  subst d3 d2 d1. unfold classified, classify. split.
  - rewrite !detect_type, detect_location_type. cbn [fst].
    now rewrite initial_payload_type.
  - rewrite !detect_body, detect_location_body. reflexivity.
Qed.

End UpsertBody.

(** X4: an emitted message of type [text] that carries no reply selection
    has as body the styled text when the message has one (an empty string
    included), else the plain conversation text. *)
Theorem upsert_text_body (E : env) (ev : upsert_event) (p : object) :
  let m := Js.opt_get (hd VUndef (messages ev)) "message" in
  busEvents.upsert E ev = Emitted p ->
  Js.lookup "type" p = Some (VStr "text") ->
  Js.truthy (Js.opt_get (Js.opt_get m "buttonsResponseMessage")
               "selectedDisplayText") = false ->
  Js.truthy (Js.opt_get (Js.opt_get m "listResponseMessage") "title") = false ->
  Js.lookup "body" p
  = Some (Js.coalesce (Js.opt_get (Js.opt_get m "extendedTextMessage") "text")
                      (Js.opt_get m "conversation")).
Proof.
  intros m H Hty Hb Hl. apply upsert_emitted in H.
  destruct H as (message & s & _ & Hm & _ & _ & _ & _ & ->).
  rewrite get_nullish in Hm.
  destruct (Js.nullish (hd VUndef (messages ev))); [discriminate |].
  injection Hm as <-. fold m in Hty |- *.
  rewrite body_without_reply by assumption.
  rewrite lookup_set_other in Hty by discriminate.
  rewrite apply_reply_overrides_frame in Hty by discriminate.
  destruct (classified_type_body E (hd VUndef (messages ev)) m)
    as (k1 & k2 & k3 & _ & _ & _ & Htype & Hbody).
  rewrite Htype in Hty. rewrite Hbody.
  destruct (Js.truthy (Js.opt_get m "audioMessage")); [discriminate |].
  destruct (Js.truthy (Js.opt_get m "documentMessage")); [discriminate |].
  destruct (Js.truthy (Js.opt_get m "imageMessage")); [discriminate |].
  destruct (Js.truthy (Js.opt_get m "locationMessage") && _ && _); [discriminate |].
  apply initial_payload_body.
Qed.

Lemma upsert_text_body_witness :
  exists p,
    busEvents.upsert Samples.E0 Samples.hi = Emitted p
    /\ Js.lookup "body" p = Some (VStr "hi").
Proof.
  eexists. split; [reflexivity |].
  apply (upsert_text_body Samples.E0 Samples.hi _ eq_refl); reflexivity.
Defined.

(** X5: an emitted message of another type that carries no reply selection
    has as body a reference token: the prefix of its kind, an underscore and
    one of the first four UUIDs drawn in the call. *)
Theorem upsert_reference_token (E : env) (ev : upsert_event) (p : object)
        (ty : string) :
  let m := Js.opt_get (hd VUndef (messages ev)) "message" in
  busEvents.upsert E ev = Emitted p ->
  Js.lookup "type" p = Some (VStr ty) ->
  ty <> "text" ->
  Js.truthy (Js.opt_get (Js.opt_get m "buttonsResponseMessage")
               "selectedDisplayText") = false ->
  Js.truthy (Js.opt_get (Js.opt_get m "listResponseMessage") "title") = false ->
  exists k,
    k <= 3
    /\ Js.lookup "body" p
       = Some (VStr ((if String.eqb ty "location" then "_event_location_"
                      else if String.eqb ty "image" then "_event_media_"
                      else if String.eqb ty "file" then "_event_document_"
                      else "_event_voice_note_")
                     ++ "_" ++ randomUUID E k)).
Proof.
  intros m H Hty Hne Hb Hl. apply upsert_emitted in H.
  destruct H as (message & s & _ & Hm & _ & _ & _ & _ & ->).
  rewrite get_nullish in Hm.
  destruct (Js.nullish (hd VUndef (messages ev))); [discriminate |].
  injection Hm as <-. fold m in Hty |- *.
  rewrite body_without_reply by assumption.
  rewrite lookup_set_other in Hty by discriminate.
  rewrite apply_reply_overrides_frame in Hty by discriminate.
  destruct (classified_type_body E (hd VUndef (messages ev)) m)
    as (k1 & k2 & k3 & H1 & H2 & H3 & Htype & Hbody).
  rewrite Htype in Hty. rewrite Hbody.
  destruct (Js.truthy (Js.opt_get m "audioMessage")).
  { injection Hty as <-. exists k3. now split. }
  destruct (Js.truthy (Js.opt_get m "documentMessage")).
  { injection Hty as <-. exists k2. split; [lia | reflexivity]. }
  destruct (Js.truthy (Js.opt_get m "imageMessage")).
  { injection Hty as <-. exists k1. split; [lia | reflexivity]. }
  destruct (Js.truthy (Js.opt_get m "locationMessage") && _ && _).
  { injection Hty as <-. exists 0. split; [lia | reflexivity]. }
  injection Hty as <-. now contradiction Hne.
Qed.

Lemma upsert_reference_token_witness :
  exists p k,
    busEvents.upsert Samples.E0 Samples.location_and_image = Emitted p
    /\ k <= 3
    /\ Js.lookup "body" p
       = Some (VStr ("_event_media_" ++ "_" ++ randomUUID Samples.E0 k)).
Proof.
  eexists.
  destruct (upsert_reference_token Samples.E0 Samples.location_and_image _
              "image" eq_refl eq_refl) as (k & Hk & Hbody);
    [discriminate | reflexivity | reflexivity |].
  exists k. split; [reflexivity |]. split; [exact Hk | exact Hbody].
Defined.

Section PollUnknown.

Import Js busEvents.

Variable E : env.

(** With a store attached, a key the store has no message for gives
    [undefined]. *)
Lemma getMessage_missing (load : value -> value -> value) (key : value) :
  store E = Some load ->
  nullish key = false ->
  truthy (opt_get (load (opt_get key "remoteJid") (opt_get key "id")) "message")
  = false ->
  getMessage E key = Some VUndef.
Proof.
  intros Hs Hk Hm. unfold getMessage. rewrite Hs, !get_nullish, Hk.
  cbv zeta. now rewrite Hm.
Qed.

(** What [getMessage] returns is [undefined] or truthy. *)
Lemma getMessage_undefined_or_truthy (key v : value) :
  getMessage E key = Some v -> v = VUndef \/ truthy v = true.
Proof.
  unfold getMessage. destruct (store E) as [load |].
  - rewrite !get_nullish. destruct (nullish key); [discriminate |].
    cbv zeta. destruct (truthy (opt_get _ "message")) eqn:Ht; intros [= <-]; auto.
  - destruct (global_bound E "proto"); [| discriminate].
    intros [= <-]. now right.
Qed.

Lemma update_entry_silent (message : list value) (entry : value)
      (tr : list effect) :
  silent_entry E entry -> update_entry E message entry tr = (Return tt, tr).
Proof.
  intros (Hn & pu & Hu & H). unfold update_entry, bind, of_option.
  rewrite Hn. cbn [ret fst snd]. rewrite Hu. cbn [ret].
  destruct (truthy pu) eqn:Ht; [| reflexivity].
  destruct H as [[=] | Hg]. now rewrite Hg.
Qed.

Lemma update_loop_silent (message rest : list value) (tr : list effect) :
  Forall (silent_entry E) rest -> update_loop E message rest tr = (Return tt, tr).
Proof.
  induction 1 as [| entry rest He Hr IH]; [reflexivity |].
  cbn [update_loop]. unfold bind at 1.
  now rewrite (update_entry_silent message entry tr He).
Qed.

End PollUnknown.

(** X6: a [messages.update] batch in which every entry either carries no
    poll updates or refers to a poll creation the store does not hold emits
    nothing and completes normally; with a store attached, a key whose
    stored record has no message is such a missing poll creation. *)
Theorem update_silent_when_unknown (E : env) (message : list value) :
  (Forall (silent_entry E) message ->
   run (busEvents.update E message) = (Return tt, []))
  /\ (forall load key,
        store E = Some load ->
        Js.nullish key = false ->
        Js.truthy (Js.opt_get (load (Js.opt_get key "remoteJid")
                                    (Js.opt_get key "id")) "message") = false ->
        busEvents.getMessage E key = Some VUndef).
Proof.
  split.
  - intros H. unfold run, busEvents.update. now apply update_loop_silent.
  - intros load key. apply getMessage_missing.
Qed.

Lemma update_silent_when_unknown_witness :
  run (busEvents.update Samples.E0
         [ VObj [("key", VObj [("remoteJid", VStr "123@s.whatsapp.net");
                               ("id", VStr "poll-2")]);
                 ("update", VObj [("pollUpdates", VArr [VObj []])])];
           VObj [("key", VObj [("remoteJid", VStr "123@s.whatsapp.net");
                               ("id", VStr "poll-1")]);
                 ("update", VObj [("status", VNum 3%float)])] ])
  = (Return tt, []).
Proof.
  apply (proj1 (update_silent_when_unknown Samples.E0 _)).
  repeat constructor.
  - eexists. split; [reflexivity |]. right.
    apply (proj2 (update_silent_when_unknown Samples.E0 []) _ _ eq_refl);
      reflexivity.
  - eexists. split; [reflexivity |]. left. reflexivity.
Defined.

(* ===================================================================== *)
(** * Further properties of the connection lifecycle *)
(* ===================================================================== *)

Section ConnectionUpdate.

Import Js Lifecycle.

Variable E : env.

(** Everything one connection update does, for every shape of update. *)
Lemma handleConnectionUpdate_log (update : connection_update) (w : world) :
  let closed := is_string "close" (connection update) in
  let opened := is_string "open" (connection update) in
  let logged_out := is_num (loggedOut E) (statusCode update) in
  let bound := global_bound E "join" && global_bound E "rimraf" in
  let wiped := closed && logged_out && bound
               && negb (rimraf_fails E (PATH_BASE E)) in
  handleConnectionUpdate E update w
  = if closed && logged_out && negb bound then w
    else
      {| session_on_disk := if wiped then false else session_on_disk w;
         log := (log w
                 ++ (if closed
                     then if logged_out then [Rimraf (PATH_BASE E)]
                          else [InitBailey (session_on_disk w)]
                     else [])
                 ++ (if opened
                     then [BindVendor; InitBusEvents; Emit "ready" (VBool true)]
                     else [])
                 ++ (if truthy (qr update) then [Emit "qr" (qr update)] else [])
                 ++ (if wiped then [InitBailey false] else []))%list |}.
Proof.
  intros closed opened logged_out bound wiped.
  unfold handleConnectionUpdate, handle_sync, on_close, clearSessionAndRestart.
  fold closed opened logged_out bound. subst wiped.
  unfold rimraf_completes, initBailey, record.
  destruct w as [s l].
  destruct closed, opened, logged_out, bound, (truthy (qr update)),
    (rimraf_fails E (PATH_BASE E));
    cbn; rewrite <- ?app_assoc; cbn; rewrite ?app_nil_r; reflexivity.
Qed.

(** The handler's promise rejects exactly on a logged-out close that finds
    [join] or [rimraf] undefined. *)
Lemma settlement_cases (update : connection_update) (w : world) :
  settlement E update w
  = if is_string "close" (connection update)
       && is_num (loggedOut E) (statusCode update)
       && negb (global_bound E "join" && global_bound E "rimraf")
    then Throw ReferenceError else Return tt.
Proof.
  unfold settlement, handle_sync, on_close, clearSessionAndRestart.
  destruct (is_string "close" (connection update)),
    (is_num (loggedOut E) (statusCode update)),
    (global_bound E "join" && global_bound E "rimraf"); reflexivity.
Qed.

End ConnectionUpdate.

(** X7: on an update reporting the connection open, the handler binds the
    socket as vendor, wires the bus events and then emits [ready] with
    [true], followed by the QR announcement if the update carries one; it
    starts no connecting cycle and deletes nothing. *)
Theorem open_makes_ready (E : env) (update : connection_update) (w : world) :
  Js.is_string "open" (connection update) = true ->
  Lifecycle.handleConnectionUpdate E update w
  = {| session_on_disk := session_on_disk w;
       log := (log w
               ++ [BindVendor; InitBusEvents; Emit "ready" (VBool true)]
               ++ (if Js.truthy (qr update) then [Emit "qr" (qr update)] else []))%list |}.
Proof.
  intros Ho. rewrite handleConnectionUpdate_log. rewrite Ho.
  assert (Hc : Js.is_string "close" (connection update) = false).
  { destruct (connection update); try reflexivity. cbn in Ho |- *.
    apply String.eqb_eq in Ho. now subst. }
  rewrite Hc. cbn. now rewrite app_nil_r.
Qed.

Lemma open_makes_ready_witness :
  Lifecycle.handleConnectionUpdate Samples.E0
    {| connection := VStr "open"; lastDisconnect := VUndef; qr := VUndef |}
    Samples.w0
  = {| session_on_disk := true;
       log := [BindVendor; InitBusEvents; Emit "ready" (VBool true)] |}.
Proof.
  apply (open_makes_ready Samples.E0
           {| connection := VStr "open"; lastDisconnect := VUndef; qr := VUndef |}
           Samples.w0 eq_refl).
Defined.

(** X8: whatever the update, the effects already logged stay in place.  The
    handler's promise rejects, with a ReferenceError, exactly on a close
    with the logged-out code that finds [join] or [rimraf] undefined, and
    then nothing at all is done.  [rimraf] is called only on a logged-out
    close where both names are defined, and only on the session directory; a
    connecting cycle is started only on a close; [ready] is emitted only on
    an open; the QR payload is announced exactly when it is truthy and the
    handler did not raise; and the persisted session changes only on a
    logged-out close whose [rimraf], defined, succeeds. *)
Theorem connection_update_effects (E : env) (update : connection_update) (w : world) :
  let closed := Js.is_string "close" (connection update) in
  let logged_out := Lifecycle.is_num (loggedOut E) (Lifecycle.statusCode update) in
  exists added,
    log (Lifecycle.handleConnectionUpdate E update w) = (log w ++ added)%list
    /\ (Lifecycle.settlement E update w = Throw ReferenceError <->
        closed = true /\ logged_out = true
        /\ (global_bound E "join" = false \/ global_bound E "rimraf" = false))
    /\ (Lifecycle.settlement E update w <> Return tt -> added = [])
    /\ (forall path, In (Rimraf path) added ->
          path = Lifecycle.PATH_BASE E
          /\ closed = true /\ logged_out = true
          /\ global_bound E "join" = true /\ global_bound E "rimraf" = true)
    /\ (forall s, In (InitBailey s) added -> closed = true)
    /\ (forall v, In (Emit "ready" v) added ->
          Js.is_string "open" (connection update) = true)
    /\ (forall v, In (Emit "qr" v) added <->
          v = qr update /\ Js.truthy (qr update) = true
          /\ Lifecycle.settlement E update w = Return tt)
    /\ (session_on_disk (Lifecycle.handleConnectionUpdate E update w)
        <> session_on_disk w ->
        closed = true /\ logged_out = true
        /\ global_bound E "join" = true /\ global_bound E "rimraf" = true
        /\ rimraf_fails E (Lifecycle.PATH_BASE E) = false).
Proof.
  intros closed logged_out.
  rewrite handleConnectionUpdate_log, settlement_cases. cbv zeta.
  fold closed logged_out.
  destruct closed, logged_out, (global_bound E "join"), (global_bound E "rimraf");
    cbn [andb negb];
    try (exists []; rewrite app_nil_r; split; [reflexivity |];
         repeat split; intros;
         repeat match goal with
                | H : _ \/ _ |- _ => destruct H
                | H : False |- _ => destruct H
                | H : _ /\ _ |- _ => destruct H
                | H : In _ [] |- _ => destruct H
                end;
         try discriminate; try congruence; auto; fail);
    (eexists; split; [reflexivity |];
     destruct (Js.is_string "open" (connection update)),
       (Js.truthy (qr update)), (rimraf_fails E (Lifecycle.PATH_BASE E));
     cbn; repeat split; intros;
     repeat match goal with
            | H : _ \/ _ |- _ => destruct H
            | H : False |- _ => destruct H
            | H : _ /\ _ |- _ => destruct H
            | H : Rimraf _ = Rimraf _ |- _ => injection H as <-
            | H : Emit _ _ = Emit _ _ |- _ => injection H as <-
            end;
     subst; try discriminate; try congruence; auto 10).
Qed.

Lemma connection_update_effects_witness :
  log (Lifecycle.handleConnectionUpdate MoreSamples.plain_node
         {| connection := VStr "close";
            lastDisconnect := lastDisconnect Samples.close_logged_out;
            qr := VStr "2@challenge" |}
         Samples.w0)
  = []
  /\ Lifecycle.settlement MoreSamples.plain_node
       {| connection := VStr "close";
          lastDisconnect := lastDisconnect Samples.close_logged_out;
          qr := VStr "2@challenge" |}
       Samples.w0
     = Throw ReferenceError.
Proof.
  destruct (connection_update_effects MoreSamples.plain_node
              {| connection := VStr "close";
                 lastDisconnect := lastDisconnect Samples.close_logged_out;
                 qr := VStr "2@challenge" |}
              Samples.w0) as (added & Hlog & Hraise & Hnone & _).
  assert (Hs : Lifecycle.settlement MoreSamples.plain_node
                 {| connection := VStr "close";
                    lastDisconnect := lastDisconnect Samples.close_logged_out;
                    qr := VStr "2@challenge" |}
                 Samples.w0 = Throw ReferenceError).
  { apply Hraise. repeat split. now left. }
  split; [| exact Hs].
  rewrite Hlog, Hnone; [reflexivity |]. rewrite Hs. discriminate.
Defined.

(* ===================================================================== *)
(** * Further properties of the outbound path *)
(* ===================================================================== *)

(** ** Reasoning on what a computation adds to the trace *)

Section Adds.

Lemma no_send_nil : no_send [].
Proof. intros jid content []. Qed.

Lemma no_send_app (x y : list effect) :
  no_send x -> no_send y -> no_send (x ++ y).
Proof.
  intros Hx Hy jid content Hin. apply in_app_or in Hin as [H | H];
    [now apply Hx in H | now apply Hy in H].
Qed.

Lemma no_send_one (e : effect) :
  (forall jid content, e <> VendorSend jid content) -> no_send [e].
Proof. intros He jid content [H | []]. now apply He in H. Qed.

Lemma sends_to_quiet (jid : string) (x : list effect) :
  no_send x -> sends_to jid x.
Proof. now left. Qed.

Lemma sends_to_one (jid : string) (content : value) :
  sends_to jid [VendorSend jid content].
Proof.
  right. exists [], content, []. repeat split; apply no_send_nil.
Qed.

Lemma sends_to_after (jid : string) (x y : list effect) :
  no_send x -> sends_to jid y -> sends_to jid (x ++ y).
Proof.
  intros Hx [Hy | (b & c & a & -> & Hb & Ha)].
  - left. now apply no_send_app.
  - right. exists (x ++ b)%list, c, a. rewrite app_assoc.
    repeat split; [now apply no_send_app | assumption].
Qed.

Lemma sends_to_before (jid : string) (x y : list effect) :
  sends_to jid x -> no_send y -> sends_to jid (x ++ y).
Proof.
  intros [Hx | (b & c & a & -> & Hb & Ha)] Hy.
  - left. now apply no_send_app.
  - right. exists b, c, (a ++ y)%list. rewrite <- app_assoc.
    repeat split; [assumption | now apply no_send_app].
Qed.

Context {A B : Type}.

Lemma adds_ret (P : list effect -> Prop) (a : A) : P [] -> adds P (ret a).
Proof.
  intros HP tr r tr' [= <- <-]. exists []. now rewrite app_nil_r.
Qed.

Lemma adds_throw (P : list effect -> Prop) (e : error) :
  P [] -> adds P (@throw A e).
Proof.
  intros HP tr r tr' [= <- <-]. exists []. now rewrite app_nil_r.
Qed.

Lemma adds_never (P : list effect -> Prop) : P [] -> adds P (@never A).
Proof.
  intros HP tr r tr' [= <- <-]. exists []. now rewrite app_nil_r.
Qed.

Lemma adds_of_option (P : list effect -> Prop) (o : option A) (e : error) :
  P [] -> adds P (of_option o e).
Proof. intros HP. destruct o; [now apply adds_ret | now apply adds_throw]. Qed.

Lemma adds_weaken (P Q : list effect -> Prop) (m : M A) :
  (forall l, P l -> Q l) -> adds P m -> adds Q m.
Proof.
  intros HPQ Hm tr r tr' H. apply Hm in H as (added & -> & HP).
  exists added. auto.
Qed.

Lemma adds_bind (P Q R : list effect -> Prop) (m : M A) (k : A -> M B) :
  adds P m -> (forall a, adds Q (k a)) ->
  (forall x, P x -> R x) ->
  (forall x y, P x -> Q y -> R (x ++ y)%list) ->
  adds R (bind m k).
Proof.
  intros Hm Hk HR1 HR2 tr r tr'. unfold bind.
  destruct (m tr) as [[a | e |] tr1] eqn:H1;
    apply Hm in H1 as (x & -> & HPx).
  - intros H2. apply Hk in H2 as (y & -> & HQy).
    exists (x ++ y)%list. rewrite app_assoc. auto.
  - intros [= <- <-]. exists x. auto.
  - intros [= <- <-]. exists x. auto.
Qed.

End Adds.

Lemma adds_perform (P : list effect -> Prop) (e : effect) :
  P [e] -> adds P (perform e).
Proof. intros HP tr r tr' [= <- <-]. now exists [e]. Qed.

Lemma adds_catch {A} (P Q R : list effect -> Prop) (m : M A) (h : error -> M A) :
  adds P m -> (forall e, adds Q (h e)) ->
  (forall x, P x -> R x) ->
  (forall x y, P x -> Q y -> R (x ++ y)%list) ->
  adds R (catch m h).
Proof.
  intros Hm Hh HR1 HR2 tr r tr'. unfold catch.
  destruct (m tr) as [[a | e |] tr1] eqn:H1;
    apply Hm in H1 as (x & -> & HPx).
  - intros [= <- <-]. exists x. auto.
  - intros H2. apply Hh in H2 as (y & -> & HQy).
    exists (x ++ y)%list. rewrite app_assoc. auto.
  - intros [= <- <-]. exists x. auto.
Qed.

(** A bind whose two halves send nothing sends nothing. *)
Lemma quiet_bind {A B} (m : M A) (k : A -> M B) :
  adds no_send m -> (forall a, adds no_send (k a)) -> adds no_send (bind m k).
Proof.
  intros Hm Hk.
  apply (adds_bind no_send no_send no_send); auto using no_send_app.
Qed.

(** A quiet computation followed by one that sends to [jid]. *)
Lemma quiet_then_send {A B} (jid : string) (m : M A) (k : A -> M B) :
  adds no_send m -> (forall a, adds (sends_to jid) (k a)) ->
  adds (sends_to jid) (bind m k).
Proof.
  intros Hm Hk.
  apply (adds_bind no_send (sends_to jid) (sends_to jid));
    auto using sends_to_quiet, sends_to_after.
Qed.

Lemma resolve_quiet (E : env) (name : string) : adds no_send (resolve E name).
Proof.
  unfold resolve. destruct (global_bound E name);
    [apply adds_ret | apply adds_throw]; apply no_send_nil.
Qed.

Ltac quiet :=
  repeat first
    [ apply quiet_bind; [| intros ?]
    | apply resolve_quiet
    | apply adds_ret; apply no_send_nil
    | apply adds_throw; apply no_send_nil
    | apply adds_never; apply no_send_nil
    | apply adds_of_option; apply no_send_nil
    | apply adds_perform; apply no_send_one; discriminate ].

(** ** Every routed send goes to the normalized identifier *)

Section Addressing.

Import Senders.

Variable E : env.

Lemma generalDownload_quiet (url : string) :
  adds no_send (utils.generalDownload E url).
Proof.
  unfold utils.generalDownload, utils.handleDownload, utils.handleFile,
    utils.fileTypeFromFile.
  apply quiet_bind.
  - apply quiet_bind; [quiet |]. intros _.
    destruct (existsSync E url); [quiet |].
    destruct (http_get E _ url); quiet.
  - intros r. apply quiet_bind; [quiet |]. intros ft.
    apply quiet_bind; [quiet |]. intros _.
    destruct (rename_fails E _ _); quiet.
Qed.

Lemma convertAudio_quiet (filePath format : string) :
  adds no_send (utils.convertAudio E filePath format).
Proof.
  unfold utils.convertAudio. apply quiet_bind; [quiet |]. intros f.
  apply quiet_bind; [quiet |]. intros _.
  apply quiet_bind; [quiet |]. intros _.
  destruct (ffmpeg_fails E _ _); quiet.
Qed.

Lemma route_media_quiet (mediaUrl : string) :
  adds no_send (route_media E mediaUrl).
Proof.
  unfold route_media. apply quiet_bind; [apply generalDownload_quiet |].
  intros f. apply quiet_bind; [quiet |]. intros t.
  destruct (JsString.includes "image" t); [quiet |].
  destruct (JsString.includes "video" t); [quiet |].
  destruct (JsString.includes "audio" t); [| quiet].
  apply quiet_bind; [apply convertAudio_quiet | intros o; quiet].
Qed.

Lemma vendor_sendMessage_to (jid : string) (content : value) :
  adds (sends_to jid) (vendor_sendMessage E jid content).
Proof.
  unfold vendor_sendMessage. destruct (vendor E) as [send |].
  - apply (adds_bind (sends_to jid) no_send (sends_to jid)).
    + apply adds_perform, sends_to_one.
    + intros _. quiet.
    + auto.
    + intros x y. apply sends_to_before.
  - apply adds_throw, sends_to_quiet, no_send_nil.
Qed.

Lemma vendor_sendFileContent_to (jid filePath : string) (content : value -> value) :
  adds (sends_to jid) (vendor_sendFileContent E jid filePath content).
Proof.
  unfold vendor_sendFileContent. destruct (vendor E) as [send |].
  - apply quiet_then_send; [quiet |]. intros _.
    apply quiet_then_send; [quiet |]. intros data.
    apply (adds_bind (sends_to jid) no_send (sends_to jid)).
    + apply adds_perform, sends_to_one.
    + intros _. quiet.
    + auto.
    + intros x y. apply sends_to_before.
  - apply adds_throw, sends_to_quiet, no_send_nil.
Qed.

Lemma sendMedia_to (number mediaUrl : string) (text : value) :
  adds (sends_to (utils.formatPhone number false))
       (sendMedia E number mediaUrl text).
Proof.
  unfold sendMedia. apply quiet_then_send.
  - apply (adds_catch no_send no_send no_send);
      [apply route_media_quiet | intros e; quiet | auto
      | auto using no_send_app].
  - intros [f | f | f | f].
    + apply vendor_sendFileContent_to.
    + apply vendor_sendFileContent_to.
    + apply vendor_sendMessage_to.
    + apply vendor_sendMessage_to.
Qed.

Lemma sendPoll_to (number : string) (text : value) (poll_options : list value) :
  adds (sends_to (utils.formatPhone number false))
       (sendPoll E number text poll_options).
Proof.
  unfold sendPoll. destruct (_ <? 2)%nat.
  - apply adds_ret, sends_to_quiet, no_send_nil.
  - apply vendor_sendMessage_to.
Qed.

End Addressing.

(** X9: whatever the options, a [sendMessage] call leaves the effects done
    before it in place, calls the connection's [sendMessage] at most once,
    and addresses that call to the target identifier normalized twice by
    [formatPhone] (once by [sendMessage], once by the sender it picks). *)
Theorem sendMessage_sends_once_to_target (E : env) (numberIn : string)
        (message : value) (third : option send_arg) :
  adds (sends_to (utils.formatPhone (utils.formatPhone numberIn false) false))
       (Senders.sendMessage E numberIn message third).
Proof.
  unfold Senders.sendMessage.
  destruct third as [arg |]; [| apply adds_throw, sends_to_quiet, no_send_nil].
  cbv zeta.
  destruct (match options arg with Some o => buttons o | None => None end)
    as [[| b bs] |].
  2: apply sendPoll_to.
  all: destruct (match options arg with Some o => media o | None => None end)
         as [m |]; [destruct (negb (String.eqb m "")) |];
       first [apply sendMedia_to | apply vendor_sendMessage_to].
Qed.

Lemma sendMessage_sends_once_to_target_witness :
  exists added,
    snd (run (Senders.sendMessage Samples.E0 "573001112233" (VStr "look")
                (Some {| options := Some {| buttons := None;
                                            media := Some "/tmp/existing/file.png" |} |})))
    = ([] ++ added)%list
    /\ sends_to "573001112233@s.whatsapp.net" added.
Proof.
  destruct (sendMessage_sends_once_to_target Samples.E0 "573001112233"
              (VStr "look")
              (Some {| options := Some {| buttons := None;
                                          media := Some "/tmp/existing/file.png" |} |})
              [] _ _ eq_refl) as (added & Hadd & Hto).
  exists added. split; [exact Hadd | exact Hto].
Defined.

(** ** Without a connection *)

Section Disconnected.

Import Senders.

Variable E : env.
Hypothesis no_vendor : vendor E = None.

Lemma vendor_sendMessage_disconnected (jid : string) (content : value)
      (tr : list effect) :
  vendor_sendMessage E jid content tr = (Throw TypeError, tr).
Proof. unfold vendor_sendMessage. now rewrite no_vendor. Qed.

Lemma vendor_sendFileContent_disconnected (jid filePath : string)
      (content : value -> value) (tr : list effect) :
  vendor_sendFileContent E jid filePath content tr = (Throw TypeError, tr).
Proof. unfold vendor_sendFileContent. now rewrite no_vendor. Qed.

Lemma sendMedia_disconnected (number mediaUrl : string) (text : value)
      (tr tr' : list effect) (r : outcome value) :
  sendMedia E number mediaUrl text tr = (r, tr') ->
  (forall v, r <> Return v)
  /\ exists added, tr' = (tr ++ added)%list /\ no_send added.
Proof.
  unfold sendMedia, bind.
  destruct (catch _ _ tr) as [[route | e |] tr1] eqn:H1.
  - assert (Hq : exists added, tr1 = (tr ++ added)%list /\ no_send added).
    { revert H1.
      apply (adds_catch no_send no_send no_send);
        [apply route_media_quiet | intros e; quiet | auto
        | auto using no_send_app]. }
    destruct route; unfold sendImage, sendVideo, sendAudio, sendFile;
      rewrite ?vendor_sendFileContent_disconnected,
        ?vendor_sendMessage_disconnected;
      intros [= <- <-]; (split; [discriminate | exact Hq]).
  - intros [= <- <-]. split; [discriminate |]. revert H1.
    apply (adds_catch no_send no_send no_send);
      [apply route_media_quiet | intros e'; quiet | auto
      | auto using no_send_app].
  - intros [= <- <-]. split; [discriminate |]. revert H1.
    apply (adds_catch no_send no_send no_send);
      [apply route_media_quiet | intros e'; quiet | auto
      | auto using no_send_app].
Qed.

End Disconnected.

(** X10: while no connection is bound ([this.vendor] is [null]), a
    [sendMessage] call never calls the connection, and the only value it can
    return is the [false] of a poll with fewer than two options: every other
    route ends in an error (or never settles). *)
Theorem sendMessage_disconnected (E : env) (numberIn : string) (message : value)
        (third : option send_arg) (tr tr' : list effect) (r : outcome value) :
  vendor E = None ->
  Senders.sendMessage E numberIn message third tr = (r, tr') ->
  (exists added, tr' = (tr ++ added)%list /\ no_send added)
  /\ (forall v, r = Return v ->
        v = VBool false
        /\ exists arg o b, third = Some arg /\ options arg = Some o
                           /\ buttons o = Some [b]).
Proof.
  intros Hv. unfold Senders.sendMessage.
  assert (Hnil : exists added, tr = (tr ++ added)%list /\ no_send added)
    by (exists []; split; [now rewrite app_nil_r | apply no_send_nil]).
  destruct third as [arg |]; [| intros [= <- <-]; split; [exact Hnil | discriminate]].
  cbv zeta.
  destruct (options arg) as [o |] eqn:Ho.
  2: { unfold Senders.sendText. rewrite vendor_sendMessage_disconnected by assumption.
       intros [= <- <-]. split; [exact Hnil | discriminate]. }
  destruct (buttons o) as [[| b [| b' bs]] |] eqn:Hb.
  2: { cbn. intros [= <- <-]. split; [exact Hnil |].
       intros v [= <-]. split; [reflexivity |]. now exists arg, o, b. }
  2: { unfold Senders.sendPoll. cbn [map List.length Nat.ltb Nat.leb].
       rewrite vendor_sendMessage_disconnected by assumption.
       intros [= <- <-]. split; [exact Hnil | discriminate]. }
  all: destruct (media o) as [m |]; [destruct (negb (String.eqb m "")) |];
    try (unfold Senders.sendText;
         rewrite vendor_sendMessage_disconnected by assumption;
         intros [= <- <-]; split; [exact Hnil | discriminate]);
    intros H; apply (sendMedia_disconnected E Hv) in H as [Hr Hq];
    (split; [exact Hq | intros v ->; now contradiction (Hr v)]).
Qed.

Lemma sendMessage_disconnected_witness :
  run (Senders.sendMessage MoreSamples.offline "573001112233" (VStr "hello")
         (Some Samples.no_options))
  = (Throw TypeError, [])
  /\ exists added, [] = ([] ++ added)%list /\ no_send added.
Proof.
  split; [reflexivity |].
  apply (proj1 (sendMessage_disconnected MoreSamples.offline "573001112233"
                  (VStr "hello") (Some Samples.no_options) [] []
                  (Throw TypeError) eq_refl eq_refl)).
Defined.

(** ** Media: acquisition, transcoding, routing *)

(** X11: for a reference that does not exist locally, [generalDownload]
    opens the temporary stream and calls [get] (over https exactly when the
    reference contains ["https:"]).  If [get] throws at once, the reference
    being no URL, the call rejects with that TypeError and no request is
    made.  A stream error rejects with [null] and a transport that never
    answers leaves the call pending.  Once the body is received,
    [fileTypeFromFile] evaluates [mime], which [utils.js] does not import:
    where the global object does not define it the call rejects with a
    ReferenceError and the temporary file is left unrenamed; where it does,
    the file is renamed to the extension of the declared content type and
    that path is returned, a missing or unknown content type being no
    failure but giving the extension ["false"]. *)
Theorem generalDownload_remote (E : env) (url : string) :
  existsSync E url = false ->
  let tmp := tmpdir E ++ "/" ++ "tmp-" ++ JsString.of_nat (Date_now E) ++ "-dat" in
  let secure := JsString.includes "https:" url in
  run (utils.generalDownload E url)
  = match http_get E secure url with
    | InvalidUrl => (Throw TypeError, [CreateWriteStream tmp])
    | StreamError => (Throw RejectedNull, [CreateWriteStream tmp; HttpGet secure url])
    | NoAnswer => (Pending, [CreateWriteStream tmp; HttpGet secure url])
    | Fetched content_type =>
        if global_bound E "mime" then
          let ext := match content_type with
                     | Some t => match mime_extension E t with
                                 | Some e => e
                                 | None => "false"
                                 end
                     | None => "false"
                     end in
          (if rename_fails E tmp (tmp ++ "." ++ ext) then Throw RejectedNull
           else Return (tmp ++ "." ++ ext),
           [CreateWriteStream tmp; HttpGet secure url;
            Rename tmp (tmp ++ "." ++ ext)])
        else (Throw ReferenceError, [CreateWriteStream tmp; HttpGet secure url])
    end.
Proof.
  intros Hremote tmp secure.
  unfold run, utils.generalDownload, utils.handleDownload, utils.handleFile,
    utils.fileTypeFromFile, resolve.
  rewrite Hremote. fold secure. unfold bind, perform, ret, throw, never.
  cbn [app fst snd]. fold tmp.
  destruct (http_get E secure url) as [[t |] | | |]; cbn [fst snd app];
    try reflexivity;
    (destruct (global_bound E "mime"); [| reflexivity]); cbn [fst snd app];
    unfold utils.render_ext.
  - destruct (mime_extension E t); destruct (rename_fails E tmp _); reflexivity.
  - destruct (rename_fails E tmp _); reflexivity.
Qed.

Lemma generalDownload_remote_witness :
  run (utils.generalDownload MoreSamples.plain_node "https://example.com/a.jpg")
  = (Throw ReferenceError,
     [CreateWriteStream "/tmp/tmp-1700-dat";
      HttpGet true "https://example.com/a.jpg"])
  /\ run (utils.generalDownload MoreSamples.picky_transport "no url at all")
     = (Throw TypeError, [CreateWriteStream "/tmp/tmp-1700-dat"])
  /\ run (utils.generalDownload Samples.E0 "https://example.com/a.jpg")
     = (Return "/tmp/tmp-1700-dat.png",
        [CreateWriteStream "/tmp/tmp-1700-dat";
         HttpGet true "https://example.com/a.jpg";
         Rename "/tmp/tmp-1700-dat" "/tmp/tmp-1700-dat.png"])
  /\ run (utils.generalDownload MoreSamples.untyped_server "http://example.com/a")
     = (Return "/tmp/tmp-1700-dat.false",
        [CreateWriteStream "/tmp/tmp-1700-dat";
         HttpGet false "http://example.com/a";
         Rename "/tmp/tmp-1700-dat" "/tmp/tmp-1700-dat.false"]).
Proof.
  split; [| split; [| split]].
  - exact (generalDownload_remote MoreSamples.plain_node
             "https://example.com/a.jpg" eq_refl).
  - exact (generalDownload_remote MoreSamples.picky_transport
             "no url at all" eq_refl).
  - exact (generalDownload_remote Samples.E0 "https://example.com/a.jpg" eq_refl).
  - exact (generalDownload_remote MoreSamples.untyped_server
             "http://example.com/a" eq_refl).
Defined.

Section MediaRouting.

Import Senders.

Variable E : env.

(** [sendMedia] once the file is acquired and its type looked up. *)
Lemma sendMedia_acquired_eq (number mediaUrl : string) (text : value)
      (tr tr1 : list effect) (f t : string) :
  utils.generalDownload E mediaUrl tr = (Return f, tr1) ->
  mime_lookup E f = Some t ->
  sendMedia E number mediaUrl text tr
  = if JsString.includes "image" t then sendImage E number f text tr1
    else if JsString.includes "video" t then sendVideo E number f text tr1
    else if JsString.includes "audio" t then
      match utils.convertAudio E f "opus" tr1 with
      | (Return fileOpus, tr2) => sendAudio E number fileOpus tr2
      | (Throw e, tr2) => (Throw e, (tr2 ++ [ConsoleError])%list)
      | (Pending, tr2) => (Pending, tr2)
      end
    else sendFile E number f tr1.
Proof.
  intros Hd Hl. unfold sendMedia, route_media, bind at 1, catch, bind at 1.
  rewrite Hd. unfold bind at 1, of_option. rewrite Hl. unfold ret at 1.
  destruct (JsString.includes "image" t); [reflexivity |].
  destruct (JsString.includes "video" t); [reflexivity |].
  destruct (JsString.includes "audio" t); [| reflexivity].
  unfold bind at 1.
  destruct (utils.convertAudio E f "opus" tr1) as [[o | e |] tr2]; reflexivity.
Qed.

(** X12: when the acquisition fails, [sendMedia] logs one console error
    and raises the same error again; when the acquired file has no known
    MIME type it logs and raises a TypeError; when the acquisition never
    settles neither does [sendMedia].  In none of these cases is a sender
    reached. *)
Theorem sendMedia_not_acquired (number mediaUrl : string) (text : value)
      (tr tr1 : list effect) :
  (forall e, utils.generalDownload E mediaUrl tr = (Throw e, tr1) ->
             sendMedia E number mediaUrl text tr
             = (Throw e, (tr1 ++ [ConsoleError])%list))
  /\ (forall f, utils.generalDownload E mediaUrl tr = (Return f, tr1) ->
                mime_lookup E f = None ->
                sendMedia E number mediaUrl text tr
                = (Throw TypeError, (tr1 ++ [ConsoleError])%list))
  /\ (utils.generalDownload E mediaUrl tr = (Pending, tr1) ->
      sendMedia E number mediaUrl text tr = (Pending, tr1)).
Proof.
  repeat split.
  - intros e Hd. unfold sendMedia, route_media, bind at 1, catch, bind at 1.
    now rewrite Hd.
  - intros f Hd Hl. unfold sendMedia, route_media, bind at 1, catch, bind at 1.
    rewrite Hd. unfold bind at 1, of_option. now rewrite Hl.
  - intros Hd. unfold sendMedia, route_media, bind at 1, catch, bind at 1.
    now rewrite Hd.
Qed.

End MediaRouting.

(** X13: once the media is acquired and its MIME type looked up from the
    file name, [sendMedia] picks the sender by the first of ["image"],
    ["video"], ["audio"] that occurs in the type, and the document sender
    otherwise; audio is transcoded to opus first, and a transcoding failure
    is logged once and raised again without any send. *)
Theorem sendMedia_acquired (E : env) (number mediaUrl : string) (text : value)
        (tr tr1 : list effect) (f t : string) :
  utils.generalDownload E mediaUrl tr = (Return f, tr1) ->
  mime_lookup E f = Some t ->
  Senders.sendMedia E number mediaUrl text tr
  = if JsString.includes "image" t then Senders.sendImage E number f text tr1
    else if JsString.includes "video" t then Senders.sendVideo E number f text tr1
    else if JsString.includes "audio" t then
      match utils.convertAudio E f "opus" tr1 with
      | (Return fileOpus, tr2) => Senders.sendAudio E number fileOpus tr2
      | (Throw e, tr2) => (Throw e, (tr2 ++ [ConsoleError])%list)
      | (Pending, tr2) => (Pending, tr2)
      end
    else Senders.sendFile E number f tr1.
Proof. apply sendMedia_acquired_eq. Qed.

Lemma sendMedia_acquired_witness :
  run (Senders.sendMedia Samples.E0 "573001112233" "/tmp/existing/file.png"
         (VStr "look"))
  = (Return (VObj [("status", VNum 1%float)]),
     [CreateWriteStream "/tmp/tmp-1700-dat";
      Rename "/tmp/existing/file.png" "/tmp/existing/file.png.png";
      ReadFile "/tmp/existing/file.png.png";
      VendorSend "573001112233@s.whatsapp.net"
        (VObj [("image", VStr "bytes"); ("caption", VStr "look")])]).
Proof.
  unfold run.
  rewrite (sendMedia_acquired Samples.E0 "573001112233" "/tmp/existing/file.png"
             (VStr "look") [] _ _ "image/png" eq_refl eq_refl).
  reflexivity.
Defined.

Lemma sendMedia_not_acquired_witness :
  run (Senders.sendMedia MoreSamples.untyped_server "573001112233"
         "http://example.com/a" (VStr "look"))
  = (Throw TypeError,
     [CreateWriteStream "/tmp/tmp-1700-dat";
      HttpGet false "http://example.com/a";
      Rename "/tmp/tmp-1700-dat" "/tmp/tmp-1700-dat.false";
      ConsoleError]).
Proof.
  destruct (sendMedia_not_acquired MoreSamples.untyped_server "573001112233"
              "http://example.com/a" (VStr "look") []
              [CreateWriteStream "/tmp/tmp-1700-dat";
               HttpGet false "http://example.com/a";
               Rename "/tmp/tmp-1700-dat" "/tmp/tmp-1700-dat.false"])
    as (_ & Hunknown & _).
  exact (Hunknown "/tmp/tmp-1700-dat.false" eq_refl eq_refl).
Defined.

(* ===================================================================== *)
(** * Further properties of [utils] *)
(* ===================================================================== *)

Section Identifiers.

Import utils.

Lemma domain_of_bare (b : string) : bare b -> domain_of b = "@s.whatsapp.net".
Proof.
  intros Hb. unfold domain_of.
  rewrite <- (app_empty_r b). now rewrite (includes_bare_app "g.us" b "" Hb).
Qed.

Lemma formatPhone_bare (b : string) :
  bare b -> formatPhone b false = b ++ "@s.whatsapp.net".
Proof.
  intros Hb. unfold formatPhone. rewrite (domain_of_bare b Hb). cbn [negb].
  now rewrite remove_first_bare.
Qed.

Lemma group_pattern_here_at (c : ascii) (s : string) :
  group_pattern_here (String c s) = true -> c = "@"%char.
Proof.
  destruct c as [[|] [|] [|] [|] [|] [|] [|] [|]]; cbn;
    try discriminate; reflexivity.
Qed.

Lemma group_pattern_bare_app (b d : string) :
  bare b -> group_pattern_matches (b ++ d) = group_pattern_matches d.
Proof.
  induction b as [| c b IH]; intros Hb; [reflexivity |].
  apply bare_cons in Hb as [Hc Hb].
  cbn [append group_pattern_matches].
  destruct (group_pattern_here (String c (b ++ d))) eqn:Hh.
  - apply group_pattern_here_at in Hh. subst c. discriminate.
  - cbn [orb]. now apply IH.
Qed.

End Identifiers.

(** X14: for a bare identifier [b] (no ['@']), formatting appends the user
    domain and stripping the result gives [b] back; stripping the group
    form [b@g.us] also gives [b], so formatting what was stripped does not
    restore a group identifier but yields the user form. *)
Theorem formatPhone_strip_roundtrip (b : string) :
  bare b ->
  utils.formatPhone b false = b ++ "@s.whatsapp.net"
  /\ utils.formatPhone (utils.formatPhone b false) true = b
  /\ utils.formatPhone (b ++ "@g.us") true = b
  /\ utils.formatPhone (utils.formatPhone (b ++ "@g.us") true) false
     = b ++ "@s.whatsapp.net".
Proof.
  intros Hb. rewrite (strip_group b Hb), (formatPhone_bare b Hb), (strip_user b Hb).
  repeat split.
Qed.

Lemma formatPhone_strip_roundtrip_witness :
  utils.formatPhone "573001112233" false = "573001112233@s.whatsapp.net"
  /\ utils.formatPhone (utils.formatPhone "573001112233" false) true
     = "573001112233"
  /\ utils.formatPhone ("573001112233" ++ "@g.us") true = "573001112233"
  /\ utils.formatPhone (utils.formatPhone ("573001112233" ++ "@g.us") true) false
     = "573001112233" ++ "@s.whatsapp.net".
Proof. apply (formatPhone_strip_roundtrip "573001112233"). reflexivity. Defined.

(** X15: [isValidNumber] accepts every bare identifier and every canonical
    user identifier, and rejects every canonical group identifier. *)
Theorem isValidNumber_canonical (b : string) :
  bare b ->
  utils.isValidNumber b = true
  /\ utils.isValidNumber (b ++ "@s.whatsapp.net") = true
  /\ utils.isValidNumber (b ++ "@g.us") = false.
Proof.
  intros Hb. unfold utils.isValidNumber.
  rewrite <- (app_empty_r b) at 1.
  rewrite !group_pattern_bare_app by assumption. repeat split.
Qed.

Lemma isValidNumber_canonical_witness :
  utils.isValidNumber "573001112233" = true
  /\ utils.isValidNumber ("573001112233" ++ "@s.whatsapp.net") = true
  /\ utils.isValidNumber ("573001112233" ++ "@g.us") = false.
Proof. apply (isValidNumber_canonical "573001112233"). reflexivity. Defined.

(* ===================================================================== *)
(** * Further properties of the typed senders *)
(* ===================================================================== *)

Section LastSegment.

Import JsString Senders.

Lemma append_assoc_s (a b c : string) : (a ++ b) ++ c = a ++ (b ++ c).
Proof. induction a; simpl; [reflexivity | now rewrite IHa]. Qed.

Lemma includes_char_app (p : ascii) (a b : string) :
  includes (String p "") (a ++ b)
  = includes (String p "") a || includes (String p "") b.
Proof.
  induction a as [| x a IH]; [reflexivity |].
  cbn [append includes starts_with]. rewrite IH. now rewrite orb_assoc.
Qed.

Lemma last_segment_step (acc : string) (c : ascii) (s : string) :
  last_segment acc (String c s)
  = if Ascii.eqb c "/" then last_segment "" s
    else last_segment (acc ++ String c "") s.
Proof.
  destruct c as [[|] [|] [|] [|] [|] [|] [|] [|]]; reflexivity.
Qed.

Lemma last_segment_no_slash (s acc : string) :
  includes "/" acc = false -> includes "/" (last_segment acc s) = false.
Proof.
  revert acc. induction s as [| c s IH]; intros acc Hacc; [exact Hacc |].
  rewrite last_segment_step. destruct (Ascii.eqb c "/") eqn:Hc.
  - now apply IH.
  - apply IH. rewrite includes_char_app, Hacc. cbn [includes starts_with].
    rewrite Ascii.eqb_sym, Hc. reflexivity.
Qed.

Lemma last_segment_suffix (s acc : string) :
  exists pre, acc ++ s = pre ++ last_segment acc s.
Proof.
  revert acc. induction s as [| c s IH]; intros acc.
  - exists "". now rewrite app_empty_r.
  - rewrite last_segment_step. destruct (Ascii.eqb c "/").
    + destruct (IH "") as [pre Hpre]. exists (acc ++ String c pre).
      rewrite append_assoc_s. cbn in Hpre |- *. now rewrite <- Hpre.
    + destruct (IH (acc ++ String c "")) as [pre Hpre]. exists pre.
      rewrite <- Hpre. now rewrite append_assoc_s.
Qed.

Lemma last_segment_whole (s acc : string) :
  includes "/" s = false -> last_segment acc s = acc ++ s.
Proof.
  revert acc. induction s as [| c s IH]; intros acc Hs.
  - now rewrite app_empty_r.
  - rewrite last_segment_step. cbn [includes starts_with] in Hs.
    apply orb_false_elim in Hs as [Hc Hs]. rewrite andb_true_r in Hc.
    rewrite Ascii.eqb_sym, Hc. rewrite (IH _ Hs). now rewrite append_assoc_s.
Qed.

End LastSegment.

(** X16: [sendFile] sends the document by its path, with the MIME type the
    lookup gives ([false] when it is unknown) and as file name the last
    segment of the path: a suffix of the path with no ['/'] in it, the whole
    path when the path has none. *)
Theorem sendFile_names_last_segment (E : env) (number filePath : string)
        (send : string -> value -> option value) :
  vendor E = Some send ->
  let fileName := Senders.last_segment "" filePath in
  let content :=
    VObj [("document", VObj [("url", VStr filePath)]);
          ("mimetype", match mime_lookup E filePath with
                       | Some t => VStr t
                       | None => VBool false
                       end);
          ("fileName", VStr fileName)] in
  run (Senders.sendFile E number filePath)
  = (match send (utils.formatPhone number false) content with
     | Some ack => Return ack
     | None => Throw VendorError
     end, [VendorSend (utils.formatPhone number false) content])
  /\ JsString.includes "/" fileName = false
  /\ JsString.ends_with fileName filePath = true
  /\ (JsString.includes "/" filePath = false -> fileName = filePath).
Proof.
  intros Hv fileName content. split; [| split; [| split]].
  - unfold Senders.sendFile. now apply vendor_sendMessage_run.
  - now apply last_segment_no_slash.
  - destruct (last_segment_suffix filePath "") as [pre Hpre].
    cbn in Hpre. pose proof (ends_with_app pre (Senders.last_segment "" filePath)) as H.
    now rewrite <- Hpre in H.
  - intros H. apply (last_segment_whole filePath "" H).
Qed.

Lemma sendFile_names_last_segment_witness :
  run (Senders.sendFile Samples.E0 "573001112233" "./document/file.pdf")
  = (Return (VObj [("status", VNum 1%float)]),
     [VendorSend "573001112233@s.whatsapp.net"
        (VObj [("document", VObj [("url", VStr "./document/file.pdf")]);
               ("mimetype", VBool false);
               ("fileName", VStr "file.pdf")])]).
Proof.
  exact (proj1 (sendFile_names_last_segment Samples.E0 "573001112233"
                  "./document/file.pdf" _ eq_refl)).
Defined.

Section Buttons.

Import Direct.

(** Reading an index back from its decimal rendering. *)
Lemma of_nat_parse (n : nat) :
  option_map Nat.of_uint (NilZero.uint_of_string (JsString.of_nat n)) = Some n.
Proof.
  unfold JsString.of_nat. pose proof (Unsigned.of_to n) as Hn.
  destruct (Nat.to_uint n) as [| d | d | d | d | d | d | d | d | d | d] eqn:Hd;
    try (rewrite NilZero.usu by discriminate; cbn [option_map]; now rewrite Hn).
  cbn. now rewrite <- Hn.
Qed.

Lemma of_nat_inj (a b : nat) : JsString.of_nat a = JsString.of_nat b -> a = b.
Proof.
  intros H. pose proof (of_nat_parse a) as Ha. rewrite H, of_nat_parse in Ha.
  now injection Ha.
Qed.

Lemma templateButtons_length (n : nat) (bs : list button) :
  List.length (templateButtons n bs) = List.length bs.
Proof. revert n. induction bs; intros n; cbn; [reflexivity | now rewrite IHbs]. Qed.

Lemma templateButtons_nth (bs : list button) (n i : nat) :
  nth_error (templateButtons n bs) i
  = option_map
      (fun btn => VObj [("buttonId", VStr ("id-btn-" ++ JsString.of_nat (n + i)));
                        ("buttonText", VObj [("displayText", body btn)]);
                        ("type", VNum 1%float)])
      (nth_error bs i).
Proof.
  revert n i. induction bs as [| b bs IH]; intros n [| i]; cbn; try reflexivity.
  - now rewrite Nat.add_0_r.
  - rewrite IH. now rewrite Nat.add_succ_r.
Qed.

End Buttons.

(** X17: [sendButtons] makes one send to the formatted target, with no
    guard on the number of buttons (an empty list is sent as it is); the
    template buttons are as many as the buttons given, the one at index [i]
    has the id [id-btn-i] and the display text of the button at [i], so the
    order is kept and the ids are pairwise distinct. *)
Theorem sendButtons_template (E : env) (number : string) (text : value)
        (bs : list button) (send : string -> value -> option value) :
  vendor E = Some send ->
  let templates := Direct.templateButtons 0 bs in
  let content :=
    VObj [("text", text); ("footer", VStr ""); ("buttons", VArr templates);
          ("headerType", VNum 1%float)] in
  run (Direct.sendButtons E number text bs)
  = (match send (utils.formatPhone number false) content with
     | Some ack => Return ack
     | None => Throw VendorError
     end, [VendorSend (utils.formatPhone number false) content])
  /\ List.length templates = List.length bs
  /\ (forall i,
        nth_error templates i
        = option_map
            (fun btn =>
               VObj [("buttonId", VStr ("id-btn-" ++ JsString.of_nat i));
                     ("buttonText", VObj [("displayText", body btn)]);
                     ("type", VNum 1%float)])
            (nth_error bs i))
  /\ (forall i j x y,
        nth_error templates i = Some x -> nth_error templates j = Some y ->
        Js.opt_get x "buttonId" = Js.opt_get y "buttonId" -> i = j).
Proof.
  intros Hv templates content. split; [| split; [| split]].
  - unfold Direct.sendButtons. now apply vendor_sendMessage_run.
  - apply templateButtons_length.
  - intros i. apply (templateButtons_nth bs 0 i).
  - intros i j x y Hi Hj. subst templates.
    rewrite templateButtons_nth in Hi, Hj. cbn [Nat.add] in Hi, Hj.
    destruct (nth_error bs i); [| discriminate].
    destruct (nth_error bs j); [| discriminate].
    injection Hi as <-. injection Hj as <-. cbn. intros [= H].
    now apply of_nat_inj.
Qed.

Lemma sendButtons_template_witness :
  run (Direct.sendButtons Samples.E0 "573001112233" (VStr "Pick")
         MoreSamples.three_buttons)
  = (Return (VObj [("status", VNum 1%float)]),
     [VendorSend "573001112233@s.whatsapp.net"
        (VObj [("text", VStr "Pick"); ("footer", VStr "");
               ("buttons",
                VArr [VObj [("buttonId", VStr "id-btn-0");
                            ("buttonText", VObj [("displayText", VStr "Yes")]);
                            ("type", VNum 1%float)];
                      VObj [("buttonId", VStr "id-btn-1");
                            ("buttonText", VObj [("displayText", VStr "No")]);
                            ("type", VNum 1%float)];
                      VObj [("buttonId", VStr "id-btn-2");
                            ("buttonText", VObj [("displayText", VStr "Later")]);
                            ("type", VNum 1%float)]]);
               ("headerType", VNum 1%float)])]).
Proof.
  exact (proj1 (sendButtons_template Samples.E0 "573001112233" (VStr "Pick")
                  MoreSamples.three_buttons _ eq_refl)).
Defined.

Section ContactCard.

Import JsString Direct.

Lemma remove_all_absent (c : ascii) (s : string) :
  includes (String c "") (remove_all c s) = false.
Proof.
  induction s as [| a s IH]; [reflexivity |]. cbn [remove_all].
  destruct (Ascii.eqb a c) eqn:Ha; [exact IH |].
  cbn [includes starts_with]. rewrite Ascii.eqb_sym, Ha. exact IH.
Qed.

Lemma remove_all_id (c : ascii) (s : string) :
  includes (String c "") s = false -> remove_all c s = s.
Proof.
  induction s as [| a s IH]; [reflexivity |]. cbn [includes starts_with].
  intros H. apply orb_false_elim in H as [Ha Hs]. rewrite andb_true_r in Ha.
  cbn [remove_all]. rewrite Ascii.eqb_sym, Ha. now rewrite IH.
Qed.

Lemma remove_first_absent (p s : string) :
  includes p s = false -> remove_first p s = s.
Proof.
  induction s as [| a s IH]; cbn [includes remove_first]; intros H;
    apply orb_false_elim in H as [Hp Hs]; rewrite Hp; [reflexivity |].
  now rewrite IH.
Qed.

End ContactCard.

(** X18: in the vCard of [sendContact] the telephone entry holds the contact
    number with every space removed, and [waid] is that number without its
    first ['+']: the number itself when it has none, what follows the ['+']
    when it begins with one.  The card is sent in one call, to the
    identifier as given, and the call answers [{status: 'success'}] when the
    connection fulfils it. *)
Theorem sendContact_vcard (remoteJid : value) (contactNumber displayName : string)
        (messages : value) :
  let clean := Direct.cleanContactNumber contactNumber in
  let waid := Direct.waid contactNumber in
  JsString.includes " " clean = false
  /\ (JsString.includes " " contactNumber = false -> clean = contactNumber)
  /\ (JsString.includes "+" clean = false -> waid = clean)
  /\ (forall rest, clean = "+" ++ rest -> waid = rest)
  /\ Direct.vcard contactNumber displayName
     = "BEGIN:VCARD" ++ Direct.nl ++ "VERSION:3.0" ++ Direct.nl
       ++ "FN:" ++ displayName ++ Direct.nl
       ++ "ORG:Ashoka Uni;" ++ Direct.nl
       ++ "TEL;type=CELL;type=VOICE;waid=" ++ waid ++ ":" ++ clean ++ Direct.nl
       ++ "END:VCARD"
  /\ (forall fulfilled,
        let call :=
          SockSendMessage remoteJid
            (VObj [("contacts",
                    VObj [("displayName", VStr displayName);
                          ("contacts",
                           VArr [VObj [("vcard",
                                        VStr (Direct.vcard contactNumber displayName))]])])])
            (VObj [("quoted", Direct.or_null messages)]) in
        Direct.sendContact (Some fulfilled) remoteJid contactNumber displayName
          messages
        = (if fulfilled call then Return Direct.success else Throw VendorError,
           [call])).
Proof.
  intros clean waid. repeat split.
  - apply remove_all_absent.
  - intros H. now apply remove_all_id.
  - intros H. now apply remove_first_absent.
  - intros rest H. subst waid. unfold Direct.waid. fold clean. now rewrite H.
Qed.

Lemma sendContact_vcard_witness :
  Direct.cleanContactNumber "+57 300 111 2233" = "+573001112233"
  /\ Direct.waid "+57 300 111 2233" = "573001112233".
Proof.
  destruct (sendContact_vcard VUndef "+57 300 111 2233" "Robin Smith" VUndef)
    as (_ & _ & _ & Hplus & _).
  split; [reflexivity |]. now apply Hplus.
Defined.

(** X19: the routing tree of [sendMessage].  A non-empty [buttons] list
    wins, whatever [media] is; with no button (the list missing or empty) a
    non-empty [media] reference goes to [sendMedia]; everything else, an
    empty [media] string included, is sent as text.  Each branch receives
    the target already formatted once. *)
Theorem sendMessage_routing (E : env) (numberIn : string) (message : value)
        (arg : send_arg) :
  let number := utils.formatPhone numberIn false in
  (forall o b bs,
     options arg = Some o -> buttons o = Some (b :: bs) ->
     Senders.sendMessage E numberIn message (Some arg)
     = Senders.sendPoll E number message (map body (b :: bs)))
  /\ (forall o m,
        options arg = Some o -> buttons o = None \/ buttons o = Some [] ->
        media o = Some m -> m <> "" ->
        Senders.sendMessage E numberIn message (Some arg)
        = Senders.sendMedia E number m message)
  /\ (options arg = None
      \/ (exists o, options arg = Some o
                    /\ (buttons o = None \/ buttons o = Some [])
                    /\ (media o = None \/ media o = Some "")) ->
      Senders.sendMessage E numberIn message (Some arg)
      = Senders.sendText E number message).
Proof.
  intros number. unfold Senders.sendMessage. fold number. repeat split.
  - intros o b bs -> ->. reflexivity.
  - intros o m -> [-> | ->] -> Hm; apply String.eqb_neq in Hm; now rewrite Hm.
  - intros [-> | (o & -> & [-> | ->] & [-> | ->])]; reflexivity.
Qed.

Lemma sendMessage_routing_witness :
  Senders.sendMessage Samples.E0 "573001112233" (VStr "Pick")
    (Some {| options := Some {| buttons := Some [ {| body := VStr "Yes" |};
                                                  {| body := VStr "No" |} ];
                                media := Some "/tmp/existing/file.png" |} |})
  = Senders.sendPoll Samples.E0 "573001112233@s.whatsapp.net" (VStr "Pick")
      [VStr "Yes"; VStr "No"].
Proof.
  exact (proj1 (sendMessage_routing Samples.E0 "573001112233" (VStr "Pick")
                  {| options := Some {| buttons := Some [ {| body := VStr "Yes" |};
                                                          {| body := VStr "No" |} ];
                                        media := Some "/tmp/existing/file.png" |} |})
           _ _ _ eq_refl eq_refl).
Defined.

Section ImageVideo.

Import Senders.

Variable E : env.

Lemma vendor_sendFileContent_run (send : string -> value -> option value)
      (jid filePath : string) (content : value -> value) (tr : list effect) :
  vendor E = Some send ->
  vendor_sendFileContent E jid filePath content tr
  = match readFileSync E filePath with
    | None => (Throw IOError, (tr ++ [ReadFile filePath])%list)
    | Some data =>
        (match send jid (content (VStr data)) with
         | Some ack => Return ack
         | None => Throw VendorError
         end,
         (tr ++ [ReadFile filePath; VendorSend jid (content (VStr data))])%list)
    end.
Proof.
  intros Hv. unfold vendor_sendFileContent. rewrite Hv.
  unfold bind, perform, of_option.
  destruct (readFileSync E filePath) as [data |]; cbn; [| reflexivity].
  rewrite <- app_assoc. cbn. destruct (send jid _); reflexivity.
Qed.

End ImageVideo.

(** X20: [sendImage] and [sendVideo] read the file before they send: when
    the file cannot be read they fail without any send.  An image is sent
    with the caption given, the empty string when the caption is [null] or
    [undefined]; a video passes its caption on as it is and carries the
    [gifPlayback] setting. *)
Theorem sendImage_sendVideo_read_first (E : env) (number filePath : string)
        (text : value) (send : string -> value -> option value) :
  vendor E = Some send ->
  let jid := utils.formatPhone number false in
  (readFileSync E filePath = None ->
   run (Senders.sendImage E number filePath text)
   = (Throw IOError, [ReadFile filePath])
   /\ run (Senders.sendVideo E number filePath text)
      = (Throw IOError, [ReadFile filePath]))
  /\ (forall data,
        readFileSync E filePath = Some data ->
        let image :=
          VObj [("image", VStr data);
                ("caption", if Js.nullish text then VStr "" else text)] in
        let video :=
          VObj [("video", VStr data); ("caption", text);
                ("gifPlayback", gifPlayback E)] in
        run (Senders.sendImage E number filePath text)
        = (match send jid image with
           | Some ack => Return ack
           | None => Throw VendorError
           end, [ReadFile filePath; VendorSend jid image])
        /\ run (Senders.sendVideo E number filePath text)
           = (match send jid video with
              | Some ack => Return ack
              | None => Throw VendorError
              end, [ReadFile filePath; VendorSend jid video])).
Proof.
  intros Hv jid. unfold run, Senders.sendImage, Senders.sendVideo.
  rewrite !(vendor_sendFileContent_run E send) by assumption. fold jid.
  split.
  - intros ->. now split.
  - intros data ->. now split.
Qed.

Lemma sendImage_sendVideo_read_first_witness :
  run (Senders.sendImage Samples.E0 "573001112233" "/tmp/p.png" VUndef)
  = (Return (VObj [("status", VNum 1%float)]),
     [ReadFile "/tmp/p.png";
      VendorSend "573001112233@s.whatsapp.net"
        (VObj [("image", VStr "bytes"); ("caption", VStr "")])])
  /\ run (Senders.sendVideo Samples.E0 "573001112233" "/tmp/p.mp4" VUndef)
     = (Return (VObj [("status", VNum 1%float)]),
        [ReadFile "/tmp/p.mp4";
         VendorSend "573001112233@s.whatsapp.net"
           (VObj [("video", VStr "bytes"); ("caption", VUndef);
                  ("gifPlayback", VBool false)])]).
Proof.
  split.
  - exact (proj1 (proj2 (sendImage_sendVideo_read_first Samples.E0
                           "573001112233" "/tmp/p.png" VUndef _ eq_refl)
                    "bytes" eq_refl)).
  - exact (proj2 (proj2 (sendImage_sendVideo_read_first Samples.E0
                           "573001112233" "/tmp/p.mp4" VUndef _ eq_refl)
                    "bytes" eq_refl)).
Defined.

(** X21: the payload the [messages.update] handler emits for an entry is
    built on the first entry of the batch, not on the entry itself: apart
    from [body], [from], [voters] and [type] it carries the own properties
    of that first entry, while [from] is the sender of the entry's own key,
    passed on without formatting. *)
Theorem update_payload_from_first_entry (E : env) (message : list value)
        (entry pollUpdates pollCreation from : value) (tr : list effect) :
  Js.nullish entry = false ->
  Js.get (Js.opt_get entry "update") "pollUpdates" = Some pollUpdates ->
  Js.truthy pollUpdates = true ->
  busEvents.getMessage E (Js.opt_get entry "key") = Some pollCreation ->
  Js.truthy pollCreation = true ->
  Js.get (Js.opt_get entry "key") "remoteJid" = Some from ->
  exists p,
    busEvents.update_entry E message entry tr
    = (Return tt, (tr ++ [Emit "message" (VObj p)])%list)
    /\ Js.lookup "from" p = Some from
    /\ (forall k, k <> "body" -> k <> "from" -> k <> "voters" -> k <> "type" ->
          Js.lookup k p = Js.lookup k (Js.spread (hd VUndef message))).
Proof.
  intros Hn Hu Ht Hg Hc Hf. eexists. split;
    [now apply (update_entry_found E message entry pollUpdates pollCreation from tr) |].
  unfold Js.extend; simpl. split.
  - rewrite !lookup_set_other by discriminate. apply lookup_set_same.
  - intros k Hb Hfr Hvo Hty. now rewrite !lookup_set_other by congruence.
Qed.

Lemma update_payload_from_first_entry_witness :
  exists p,
    run (busEvents.update_entry Samples.E0
           (VObj [("key", VObj [("remoteJid", VStr "999@s.whatsapp.net");
                                ("id", VStr "other")])]
            :: Samples.poll_update)
           (hd VUndef Samples.poll_update))
    = (Return tt, [Emit "message" (VObj p)])
    /\ Js.lookup "from" p = Some (VStr "123@s.whatsapp.net")
    /\ Js.lookup "key" p
       = Some (VObj [("remoteJid", VStr "999@s.whatsapp.net"); ("id", VStr "other")]).
Proof.
  destruct (update_payload_from_first_entry Samples.E0
              (VObj [("key", VObj [("remoteJid", VStr "999@s.whatsapp.net");
                                   ("id", VStr "other")])]
               :: Samples.poll_update)
              (hd VUndef Samples.poll_update) _ _ _ [] eq_refl eq_refl eq_refl
              eq_refl eq_refl eq_refl) as (p & Hrun & Hfrom & Hkeep).
  exists p. split; [exact Hrun |]. split; [exact Hfrom |].
  rewrite Hkeep by discriminate. reflexivity.
Defined.

(** X22: a failure of the sender [sendMedia] picks is passed on without
    the console log that failures of the acquisition get: an image that was
    acquired but cannot be read ends the call with the read error, the
    trace holding the read and neither a log entry nor a send. *)
Theorem sendMedia_sender_failure_unlogged (E : env) (number mediaUrl : string)
        (text : value) (tr tr1 : list effect) (f t : string)
        (send : string -> value -> option value) :
  vendor E = Some send ->
  utils.generalDownload E mediaUrl tr = (Return f, tr1) ->
  mime_lookup E f = Some t ->
  JsString.includes "image" t = true ->
  readFileSync E f = None ->
  Senders.sendMedia E number mediaUrl text tr
  = (Throw IOError, (tr1 ++ [ReadFile f])%list).
Proof.
  intros Hv Hd Hl Hi Hr.
  rewrite (sendMedia_acquired_eq E number mediaUrl text tr tr1 f t Hd Hl), Hi.
  unfold Senders.sendImage.
  now rewrite (vendor_sendFileContent_run E send), Hr.
Qed.

Lemma sendMedia_sender_failure_unlogged_witness :
  run (Senders.sendMedia MoreSamples.unreadable "573001112233"
         "/tmp/existing/file.png" (VStr "look"))
  = (Throw IOError,
     [CreateWriteStream "/tmp/tmp-1700-dat";
      Rename "/tmp/existing/file.png" "/tmp/existing/file.png.png";
      ReadFile "/tmp/existing/file.png.png"]).
Proof.
  exact (sendMedia_sender_failure_unlogged MoreSamples.unreadable "573001112233"
           "/tmp/existing/file.png" (VStr "look") []
           [CreateWriteStream "/tmp/tmp-1700-dat";
            Rename "/tmp/existing/file.png" "/tmp/existing/file.png.png"]
           "/tmp/existing/file.png.png" "image/png" _
           eq_refl eq_refl eq_refl eq_refl eq_refl).
Defined.
